(** * SQL_Agent: shallow embedding of the query pipeline

    The embedded code lives in [src/lib/agent.ts] (the SQL validator, the
    agent loop and the answer parser), [src/lib/schema.ts] (the schema
    materializer [schemaToFiles] and the introspection functions
    [fetchSchema] and [fetchSchemaViaRest]), [src/lib/storage.ts] (the
    browser storage helpers), [src/app/api/query/route.ts] (the query
    endpoint [POST]) and [src/app/api/schema/route.ts] (the schema
    endpoint [POST]).

    Strings handled character by character are [list ascii]; JavaScript's
    [String.prototype.trim] and [toUpperCase] are modelled on the ASCII
    range (whitespace: space, tab, LF, VT, FF, CR; case: a-z / A-Z); the
    model agrees with JavaScript on ASCII strings ([ascii_only]). *)

From Stdlib Require Import String Ascii List Bool Arith Lia.
Import ListNotations.

Local Open Scope list_scope.

(** ** Character-level helpers (JavaScript string built-ins) *)

Module JS.

Definition chars := list ascii.

Definition is_ws (c : ascii) : bool :=
  match nat_of_ascii c with
  | 32 | 9 | 10 | 11 | 12 | 13 => true
  | _ => false
  end.

(** leading part of [String.prototype.trim] *)
Fixpoint trim_start (s : chars) : chars :=
  match s with
  | [] => []
  | c :: r => if is_ws c then trim_start r else s
  end.

Definition all_ws (l : chars) : Prop := Forall (fun c => is_ws c = true) l.

Definition trim_end (s : chars) : chars := rev (trim_start (rev s)).

(** [s.trim()] *)
Definition trim (s : chars) : chars := trim_end (trim_start s).

Definition upper (c : ascii) : ascii :=
  let n := nat_of_ascii c in
  if (97 <=? n) && (n <=? 122) then ascii_of_nat (n - 32) else c.

(** [s.toUpperCase()], on the ASCII range only: outside it JavaScript maps
    some characters to other strings (for instance U+00DF to "SS"), which
    [upper] does not model. *)
Definition toUpperCase (s : chars) : chars := map upper s.

(** All characters are ASCII (code below 128): the inputs on which [upper],
    [toUpperCase] and [is_ws] coincide with JavaScript's case mapping and
    whitespace. *)
Definition ascii_only (s : chars) : bool := forallb (fun c => nat_of_ascii c <? 128) s.

(** [s.startsWith(p)] *)
Fixpoint startsWith (s p : chars) {struct p} : bool :=
  match p, s with
  | [], _ => true
  | c :: p', d :: s' => Ascii.eqb c d && startsWith s' p'
  | _ :: _, [] => false
  end.

(** [s.includes(p)] *)
Fixpoint includes (s p : chars) : bool :=
  startsWith s p ||
  match s with
  | [] => false
  | _ :: r => includes r p
  end.

(** [\w] of JavaScript regular expressions *)
Definition is_word (c : ascii) : bool :=
  let n := nat_of_ascii c in
  ((48 <=? n) && (n <=? 57)) || ((65 <=? n) && (n <=? 90)) ||
  ((97 <=? n) && (n <=? 122)) || (n =? 95).

(** character comparison under the [i] flag *)
Definition eq_ci (c d : ascii) : bool := Ascii.eqb (upper c) (upper d).

(** match the literal [p] (case-insensitively) at the head of [s];
    returns the rest of [s] *)
Fixpoint match_ci (p s : chars) : option chars :=
  match p, s with
  | [], _ => Some s
  | c :: p', d :: s' => if eq_ci c d then match_ci p' s' else None
  | _ :: _, [] => None
  end.

Definition boundary_after (rest : chars) : bool :=
  match rest with
  | [] => true
  | c :: _ => negb (is_word c)
  end.

(** search for [\bKW\b] (flag [i]) where [KW] is made of word characters:
    [prev_word] tells whether the character before the current position
    is a word character *)
Fixpoint word_search (kw : chars) (prev_word : bool) (s : chars) : bool :=
  match s with
  | [] => false
  | c :: r =>
      (negb prev_word &&
       match match_ci kw s with
       | Some rest => boundary_after rest
       | None => false
       end)
      || word_search kw (is_word c) r
  end.

(** [new RegExp(`\\b${kw}\\b`, 'i').test(s)] *)
Definition word_regex_test (kw s : chars) : bool := word_search kw false s.

(** [s.replace(/q[^q]*q/g, '')]: a quote opens a span that is removed with
    its closing quote; an unclosed span is kept as it is.  [buf] holds the
    (reversed) characters of the span opened but not yet closed. *)
Fixpoint strip_go (q : ascii) (buf : option chars) (s : chars) : chars :=
  match s with
  | [] =>
      match buf with
      | None => []
      | Some b => rev b
      end
  | c :: r =>
      match buf with
      | None =>
          if Ascii.eqb c q then strip_go q (Some [c]) r
          else c :: strip_go q None r
      | Some b =>
          if Ascii.eqb c q then strip_go q None r
          else strip_go q (Some (c :: b)) r
      end
  end.

Definition strip_quoted (q : ascii) (s : chars) : chars := strip_go q None s.

End JS.

Import JS.

(** ** [validateSqlQuery] (src/lib/agent.ts) *)

Module Validator.

Record outcome := mk_outcome { valid : bool; error : option string }.

Definition squote : ascii := "'"%char.
Definition dquote : ascii := "034"%char.
Definition semicolon : ascii := ";"%char.

Definition msg_only_select : string :=
  "Only SELECT queries are allowed. Query must start with SELECT or WITH.".
Definition msg_keyword (kw : string) : string :=
  ("Query contains forbidden keyword: " ++ kw ++ ". Only SELECT queries are allowed.")%string.
Definition msg_multiple : string := "Multiple SQL statements are not allowed.".
Definition msg_comments : string := "SQL comments are not allowed.".

Definition dangerousKeywords : list string :=
  [ "INSERT"; "UPDATE"; "DELETE"; "DROP"; "TRUNCATE"; "ALTER";
    "CREATE"; "GRANT"; "REVOKE"; "EXECUTE"; "EXEC"; "CALL";
    "SET"; "COPY"; "LOAD"; "VACUUM"; "REINDEX"; "CLUSTER" ]%string.

(** the [for (const keyword of dangerousKeywords)] loop: the first keyword
    whose regex matches *)
Fixpoint first_forbidden (kws : list string) (trimmed : chars) : option string :=
  match kws with
  | [] => None
  | kw :: rest =>
      if word_regex_test (list_ascii_of_string kw) trimmed then Some kw
      else first_forbidden rest trimmed
  end.

Definition normalize (sql : string) : chars :=
  toUpperCase (trim (list_ascii_of_string sql)).

Definition without_strings (trimmed : chars) : chars :=
  strip_quoted dquote (strip_quoted squote trimmed).

Definition starts_ok (trimmed : chars) : bool :=
  startsWith trimmed (list_ascii_of_string "SELECT") ||
  startsWith trimmed (list_ascii_of_string "WITH").

Definition has_comment (trimmed : chars) : bool :=
  includes trimmed (list_ascii_of_string "--") ||
  includes trimmed (list_ascii_of_string "/*").

Definition validateSqlQuery (sql : string) : outcome :=
  let trimmed := normalize sql in
  if negb (starts_ok trimmed) then mk_outcome false (Some msg_only_select)
  else match first_forbidden dangerousKeywords trimmed with
  | Some kw => mk_outcome false (Some (msg_keyword kw))
  | None =>
      if includes (without_strings trimmed) [semicolon]
      then mk_outcome false (Some msg_multiple)
      else if has_comment trimmed
      then mk_outcome false (Some msg_comments)
      else mk_outcome true None
  end.

End Validator.

Import Validator.


(** ** Schema data model (src/lib/types.ts) *)

Module TableInfo.
Record t := mk { table_schema : string; table_name : string; table_type : string }.
End TableInfo.

Module ColumnInfo.
Record t := mk {
  table_schema : string;
  table_name : string;
  column_name : string;
  data_type : string;
  is_nullable : string;
  column_default : option string;              (* string | null *)
  character_maximum_length : option nat        (* number | null *)
}.
End ColumnInfo.

Module ForeignKeyInfo.
Record t := mk {
  constraint_name : string;
  table_schema : string;
  table_name : string;
  column_name : string;
  foreign_table_schema : string;
  foreign_table_name : string;
  foreign_column_name : string
}.
End ForeignKeyInfo.

Record SchemaInfo := mkSchema {
  tables : list TableInfo.t;
  columns : list ColumnInfo.t;
  foreignKeys : list ForeignKeyInfo.t
}.

(** ** [schemaToFiles] (src/lib/schema.ts) *)

Module Schema.

Local Open Scope string_scope.

(** A JavaScript object used as [Record<string, string>]: keys in insertion
    order; assigning an existing key replaces its value in place. *)
Definition files := list (string * string).

Fixpoint obj_set (k v : string) (o : files) : files :=
  match o with
  | [] => [(k, v)]
  | (k', v') :: r => if String.eqb k k' then (k, v) :: r else (k', v') :: obj_set k v r
  end.

Fixpoint obj_get (k : string) (o : files) : option string :=
  match o with
  | [] => None
  | (k', v) :: r => if String.eqb k k' then Some v else obj_get k r
  end.

Definition nl : string := String (ascii_of_nat 10) EmptyString.

(** [arr.join(sep)] *)
Fixpoint join (sep : string) (l : list string) : string :=
  match l with
  | [] => ""
  | [x] => x
  | x :: r => x ++ sep ++ join sep r
  end.

Definition overview_line (table : TableInfo.t) : string :=
  "- " ++ TableInfo.table_name table ++ " (" ++ TableInfo.table_type table ++ ")" ++ nl.

Definition overview_of (tbls : list TableInfo.t) : string :=
  fold_left (fun acc table => acc ++ overview_line table)
    tbls ("# Database Schema Overview" ++ nl ++ nl ++ "## Tables" ++ nl ++ nl).

Definition column_row (col : ColumnInfo.t) : string :=
  let nullable := if String.eqb (ColumnInfo.is_nullable col) "YES" then "Yes" else "No" in
  let defaultVal :=
    match ColumnInfo.column_default col with
    | Some d => if String.eqb d "" then "-" else d
    | None => "-"
    end in
  "| " ++ ColumnInfo.column_name col ++ " | " ++ ColumnInfo.data_type col ++ " | "
       ++ nullable ++ " | " ++ defaultVal ++ " |" ++ nl.

Definition fk_line (fk : ForeignKeyInfo.t) : string :=
  "- " ++ ForeignKeyInfo.column_name fk ++ " → " ++ ForeignKeyInfo.foreign_table_name fk
       ++ "." ++ ForeignKeyInfo.foreign_column_name fk ++ nl.

Definition columns_header : string :=
  "## Columns" ++ nl ++ nl ++
  "| Column | Type | Nullable | Default |" ++ nl ++
  "|--------|------|----------|--------|" ++ nl.

(** the body of the per-table loop: [content] for [table] *)
Definition table_content (table : TableInfo.t) (tableColumns : list ColumnInfo.t)
    (tableFKs : list ForeignKeyInfo.t) : string :=
  let content :=
    "# Table: " ++ TableInfo.table_name table ++ nl ++ nl ++
    "Type: " ++ TableInfo.table_type table ++ nl ++
    "Schema: " ++ TableInfo.table_schema table ++ nl ++ nl ++ columns_header in
  let content := fold_left (fun acc col => acc ++ column_row col) tableColumns content in
  if Nat.ltb 0 (length tableFKs) then
    fold_left (fun acc fk => acc ++ fk_line fk) tableFKs
      (content ++ nl ++ "## Foreign Keys" ++ nl ++ nl)
  else content.

Definition columns_of (schema : SchemaInfo) (name : string) : list ColumnInfo.t :=
  filter (fun c => String.eqb (ColumnInfo.table_name c) name) (columns schema).

Definition fks_of (schema : SchemaInfo) (name : string) : list ForeignKeyInfo.t :=
  filter (fun fk => String.eqb (ForeignKeyInfo.table_name fk) name) (foreignKeys schema).

Definition table_path (name : string) : string := "schema/tables/" ++ name ++ ".md".

Definition relationship_line (fk : ForeignKeyInfo.t) : string :=
  "- " ++ ForeignKeyInfo.table_name fk ++ "." ++ ForeignKeyInfo.column_name fk ++ " → "
       ++ ForeignKeyInfo.foreign_table_name fk ++ "." ++ ForeignKeyInfo.foreign_column_name fk ++ nl.

Definition summary_entry (schema : SchemaInfo) (table : TableInfo.t) : string :=
  "### " ++ TableInfo.table_name table ++ nl ++
  join nl (map (fun c => "- " ++ ColumnInfo.column_name c ++ " (" ++ ColumnInfo.data_type c ++ ")")
               (columns_of schema (TableInfo.table_name table))) ++
  nl ++ nl.

Definition schemaToFiles (schema : SchemaInfo) : files :=
  let files0 : files := [] in
  let files1 := obj_set "schema/overview.md" (overview_of (tables schema)) files0 in
  let files2 :=
    fold_left (fun fs table =>
        let name := TableInfo.table_name table in
        obj_set (table_path name)
          (table_content table (columns_of schema name) (fks_of schema name)) fs)
      (tables schema) files1 in
  let files3 :=
    if Nat.ltb 0 (length (foreignKeys schema)) then
      obj_set "schema/relationships.md"
        (fold_left (fun acc fk => acc ++ relationship_line fk) (foreignKeys schema)
           ("# Table Relationships" ++ nl ++ nl ++ "## Foreign Key Relationships" ++ nl ++ nl))
        files2
    else files2 in
  let summary :=
    fold_left (fun acc table => acc ++ summary_entry schema table) (tables schema)
      ("# Quick Reference" ++ nl ++ nl ++ "## All Tables and Columns" ++ nl ++ nl) in
  obj_set "schema/summary.md" summary files3.

End Schema.

(** ** The agent (src/lib/agent.ts, [createQueryAgent] and [query]) *)

Module Agent.

(** A tool call as the code reads it: [{ toolName?, args?: { command?, path? } }]. *)
Record ToolArgs := mkArgs { command : option string; path : option string }.
Record ToolCall := mkCall { toolName : option string; args : option ToolArgs }.

(** One step of [generateText]: the model's text and the tool calls it issued
    (all of them executed by the SDK before the next step). *)
Record Step := mkStep { text : string; toolCalls : list ToolCall }.

(** The language model behind [client(modelId)]: given the steps so far
    (the tool results are a function of them, the files being fixed), it
    produces the next step or throws an error with a message. *)
Definition Provider := list Step -> string + Step.

(** [stepCountIs(n)] of the [ai] SDK *)
Definition stepCountIs (n : nat) (steps : list Step) : bool := Nat.eqb (length steps) n.

(** The multi-step loop of the SDK's [generateText] with [stopWhen]: call the
    model, append the step, continue while the step issued tool calls and
    the stop condition does not hold.  [fuel] only makes the recursion
    structural; it is started at [budget], which the stop condition reaches
    first. *)
Fixpoint gen_loop (provider : Provider) (budget fuel : nat) (steps : list Step)
    : string + list Step :=
  match fuel with
  | 0 => inr steps
  | S fuel' =>
      match provider steps with
      | inl e => inl e
      | inr st =>
          let steps' := steps ++ [st] in
          if match toolCalls st with [] => true | _ => false end
             || stepCountIs budget steps'
          then inr steps'
          else gen_loop provider budget fuel' steps'
      end
  end.

Record GenResult := mkGen { result_text : string; result_steps : list Step }.

(** [result.text] is the text of the last step *)
Definition generateText (provider : Provider) (budget : nat) : string + GenResult :=
  match gen_loop provider budget budget [] with
  | inl e => inl e
  | inr steps =>
      inr (mkGen (match last steps (mkStep "" []) with mkStep t _ => t end) steps)
  end.

(** JavaScript truthiness of an optional string *)
Definition truthy (o : option string) : bool :=
  match o with Some s => negb (String.eqb s "") | None => false end.

Definition opt_str (o : option string) : string :=
  match o with Some s => s | None => "" end.

Definition name_is (o : option string) (n : string) : bool :=
  match o with Some s => String.eqb s n | None => false end.

(** the entries pushed for one tool call *)
Definition step_entry (tc : ToolCall) : list string :=
  let cmd := match args tc with Some a => command a | None => None end in
  let pth := match args tc with Some a => path a | None => None end in
  if name_is (toolName tc) "bash" && truthy cmd then [("$ " ++ opt_str cmd)%string]
  else if name_is (toolName tc) "readFile" && truthy pth then [("$ cat " ++ opt_str pth)%string]
  else if truthy (toolName tc) then [("[" ++ opt_str (toolName tc) ++ "] executed")%string]
  else [].

(** the nested [for] loops over [result.steps] and [step.toolCalls] *)
Definition extractSteps (steps : list Step) : list string :=
  flat_map (fun st => flat_map step_entry (toolCalls st)) steps.

(** *** Response parsing *)

Definition backticks : chars := list_ascii_of_string "```".
Definition fence_open_tag : chars := list_ascii_of_string "```sql".
(** the literal [```sql\n] of the regex *)
Definition fence_open : chars := fence_open_tag ++ [ascii_of_nat 10].

(** [p] at the head of [s]: the rest of [s] *)
Definition match_lit (p s : chars) : option chars :=
  if startsWith s p then Some (skipn (length p) s) else None.

(** [([\s\S]*?)```]: the shortest prefix followed by three backticks *)
Fixpoint lazy_until (stop s : chars) : option chars :=
  if startsWith s stop then Some []
  else match s with
       | [] => None
       | c :: r => option_map (cons c) (lazy_until stop r)
       end.

(** [finalResponse.match(/```sql\n([\s\S]*?)```/)]: leftmost match, group 1 *)
Fixpoint sql_match (s : chars) : option chars :=
  match s with
  | [] => None
  | _ :: r =>
      match match_lit fence_open s with
      | Some rest =>
          match lazy_until backticks rest with
          | Some g => Some g
          | None => sql_match r
          end
      | None => sql_match r
      end
  end.

(** [const sql = sqlMatch ? sqlMatch[1].trim() : '']; *)
Definition extract_sql (finalResponse : chars) : chars :=
  match sql_match finalResponse with
  | Some g => trim g
  | None => []
  end.

Definition expl_marker : chars := list_ascii_of_string "**Explanation:**".
Definition sql_marker : chars := list_ascii_of_string "**SQL Query:".

Fixpoint skip_ws (s : chars) : chars :=
  match s with
  | c :: r => if is_ws c then skip_ws r else s
  | [] => []
  end.

(** [([\s\S]*?)(?=\*\*SQL Query:|$)]: up to the first marker or the end *)
Fixpoint until_marker_or_end (s : chars) : chars :=
  if startsWith s sql_marker then []
  else match s with
       | [] => []
       | c :: r => c :: until_marker_or_end r
       end.

(** [finalResponse.match(/\*\*Explanation:\*\*\s*([\s\S]*?)(?=\*\*SQL Query:|$)/)] *)
Fixpoint explanation_match (s : chars) : option chars :=
  match s with
  | [] => None
  | _ :: r =>
      match match_lit expl_marker s with
      | Some rest => Some (until_marker_or_end (skip_ws rest))
      | None => explanation_match r
      end
  end.

(** [finalResponse.split('```')[0]] *)
Fixpoint before_backticks (s : chars) : chars :=
  if startsWith s backticks then []
  else match s with
       | [] => []
       | c :: r => c :: before_backticks r
       end.

Definition extract_explanation (finalResponse : chars) : chars :=
  match explanation_match finalResponse with
  | Some g => trim g
  | None => trim (before_backticks finalResponse)
  end.

Record AgentResponse := mkResponse {
  explanation : string;
  sql : string;
  steps : list string
}.

(** [agent.query(question)] for a model [provider] (the system prompt, the
    question and the read-only bash tools over the files are inputs of the
    provider); [stopWhen: stepCountIs(10)] *)
Definition query (provider : Provider) : string + AgentResponse :=
  match generateText provider 10 with
  | inl e => inl e
  | inr result =>
      let steps := extractSteps (result_steps result) in
      let finalResponse := list_ascii_of_string (result_text result) in
      inr (mkResponse (string_of_list_ascii (extract_explanation finalResponse))
                      (string_of_list_ascii (extract_sql finalResponse))
                      steps)
  end.

End Agent.

(** ** The query endpoint (src/app/api/query/route.ts, [POST]) *)

Module Route.

Local Open Scope string_scope.

Record Credentials := mkCred {
  supabaseUrl : string;
  supabaseAnonKey : string;
  llmProvider : string;
  llmModel : option string;
  llmApiKey : string
}.

(** [createLLMClient]: throws on an unknown provider *)
Definition createLLMClient (credentials : Credentials) : string + unit :=
  let p := llmProvider credentials in
  if String.eqb p "openai" || String.eqb p "anthropic" || String.eqb p "google"
  then inr tt
  else inl ("Unknown LLM provider: " ++ p).

(** [getModelId] *)
Definition getModelId (provider : string) (modelOverride : option string) : string :=
  if Agent.truthy modelOverride then Agent.opt_str modelOverride
  else if String.eqb provider "openai" then "gpt-4o-mini"
  else if String.eqb provider "anthropic" then "claude-sonnet-4-20250514"
  else if String.eqb provider "google" then "gemini-3-pro-preview"
  else "gpt-4o-mini".

Definition rows := list (list (string * string)).

(** the result of [await supabase.rpc('execute_query', ...)]: it throws, or
    it returns [{ data, error }] where [error] carries a [message] *)
Inductive RpcOutcome :=
| RpcThrows
| RpcReturns (data : option rows) (err : option string).

(** JSON values of the response bodies *)
Inductive jval :=
| JBool (b : bool)
| JStr (s : string)
| JNull
| JStrs (l : list string)
| JRows (r : rows).

Record Response := mkResp { status : nat; body : list (string * jval) }.

Record Request := mkReq {
  question : option string;
  credentials : option Credentials;
  schema : option SchemaInfo
}.

(** The collaborators of the endpoint. *)
Record Env := mkEnv {
  (** the model [client(modelId)] of a provider, with the bash tools over
      the files, answering a question *)
  model : string -> string -> Schema.files -> string -> Agent.Provider;
  (** [createSupabaseClient(url, key)]: [Some msg] when it throws *)
  client_error : string -> string -> option string;
  (** [supabase.rpc('execute_query', { query_text })] *)
  rpc : Credentials -> string -> RpcOutcome
}.

(** calls the endpoint makes to the pipeline's components and collaborators *)
Inductive Event :=
| EvAgent (question : string)
| EvValidate (sql : string)
| EvRpc (query_text : string).

Definition trim_s (s : string) : string :=
  string_of_list_ascii (trim (list_ascii_of_string s)).

(** [result.sql.trim().replace(/;+$/, '')] *)
Definition drop_semis (s : chars) : chars :=
  rev ((fix go (l : chars) : chars :=
          match l with
          | c :: r => if Ascii.eqb c ";"%char then go r else l
          | [] => []
          end) (rev s)).

Definition cleanSql (sql : string) : string :=
  string_of_list_ascii (drop_semis (trim (list_ascii_of_string sql))).

Definition msg_extract : string :=
  "Could not extract SQL from the response. Please try rephrasing your question.".

Definition note_of (m : string) : string :=
  "SQL generated successfully. RPC error: " ++ m ++
  ". To execute queries directly, set up an execute_query RPC function in your Supabase project.".

Definition bad_request : Response :=
  mkResp 400 [("error", JStr "Missing question, credentials, or schema")].

Definition server_error (m : string) : Response :=
  mkResp 500 [("success", JBool false); ("error", JStr m)].

Definition POST (env : Env) (req : Request) : Response * list Event :=
  match question req, credentials req, schema req with
  | Some q, Some cr, Some sc =>
    if String.eqb q "" then (bad_request, []) else
    let schemaFiles := Schema.schemaToFiles sc in
    match createLLMClient cr with
    | inl e => (server_error e, [])
    | inr _ =>
      let provider :=
        model env (llmProvider cr) (getModelId (llmProvider cr) (llmModel cr)) schemaFiles q in
      match Agent.query provider with
      | inl e => (server_error e, [EvAgent q])
      | inr result =>
        let expl := Agent.explanation result in
        let sql := Agent.sql result in
        let steps := Agent.steps result in
        if String.eqb sql "" || String.eqb (trim_s sql) "" then
          (mkResp 200 [("success", JBool false); ("error", JStr msg_extract);
                       ("explanation", JStr expl); ("steps", JStrs steps)],
           [EvAgent q])
        else
        let validation := validateSqlQuery sql in
        if negb (valid validation) then
          (mkResp 200 [("success", JBool false); ("error", JStr (Agent.opt_str (error validation)));
                       ("explanation", JStr expl); ("sql", JStr sql); ("steps", JStrs steps)],
           [EvAgent q; EvValidate sql])
        else
        match client_error env (supabaseUrl cr) (supabaseAnonKey cr) with
        | Some e => (server_error e, [EvAgent q; EvValidate sql])
        | None =>
          let clean := cleanSql sql in
          let '(data, executeError) :=
            match rpc env cr clean with
            | RpcThrows => (None, Some "RPC not available")
            | RpcReturns d err => (d, err)
            end in
          let trace := [EvAgent q; EvValidate sql; EvRpc clean] in
          match executeError with
          | Some m =>
            (mkResp 200 [("success", JBool true); ("explanation", JStr expl); ("sql", JStr sql);
                         ("steps", JStrs steps); ("data", JNull); ("note", JStr (note_of m))],
             trace)
          | None =>
            (mkResp 200 [("success", JBool true); ("explanation", JStr expl); ("sql", JStr sql);
                         ("steps", JStrs steps);
                         ("data", match data with Some r => JRows r | None => JNull end)],
             trace)
          end
        end
      end
    end
  | _, _, _ => (bad_request, [])
  end.

End Route.

(** ** Schema introspection (src/lib/schema.ts) *)

Module SchemaFetch.

Local Open Scope string_scope.

(** [createSupabaseClient] from its location: a pure pass-through to the
    Supabase SDK, which is not embedded; [fetchSchema] below takes the
    results of the client's queries. *)

(** one entry of [def.properties]: [{ type?, format?, description? }] *)
Record PropDef := mkProp { p_type : option string; p_format : option string;
                           p_description : option string }.

(** one value of [openApiSpec.definitions]: [{ properties? }] *)
Record Definition_ := mkDef { properties : option (list (string * PropDef)) }.

(** [fetch(`${supabaseUrl}/rest/v1/`, ...)]: it rejects with a message, or
    gives a response whose [json()] rejects with a message or yields the
    [definitions] entry of the spec (absent or null: [None]) *)
Inductive FetchOutcome :=
| FetchThrows (msg : string)
| FetchResponse (ok : bool) (json : string + option (list (string * Definition_))).

Definition data_type_of (columnDef : PropDef) : string :=
  if Agent.truthy (p_format columnDef) then Agent.opt_str (p_format columnDef)
  else if Agent.truthy (p_type columnDef) then Agent.opt_str (p_type columnDef)
  else "unknown".

Definition column_of (tableName : string) (entry : string * PropDef) : ColumnInfo.t :=
  ColumnInfo.mk "public" tableName (fst entry) (data_type_of (snd entry)) "YES" None None.

(** the body of [for (const [tableName, definition] of ...)] on the two
    arrays [tables] and [columns] *)
Definition rest_step (acc : list TableInfo.t * list ColumnInfo.t)
    (entry : string * Definition_) : list TableInfo.t * list ColumnInfo.t :=
  let '(tables, columns) := acc in
  let '(tableName, def) := entry in
  if startsWith (list_ascii_of_string tableName) ["_"%char] then (tables, columns)
  else
    let tables := (tables ++ [TableInfo.mk "public" tableName "BASE TABLE"])%list in
    match properties def with
    | Some props => (tables, (columns ++ map (column_of tableName) props)%list)
    | None => (tables, columns)
    end.

Definition msg_rest : string := "Failed to fetch schema from REST endpoint".

(** [fetchSchemaViaRest(supabaseUrl, anonKey)] for the outcome of its [fetch] *)
Definition fetchSchemaViaRest (response : FetchOutcome) : string + SchemaInfo :=
  match response with
  | FetchThrows m => inl m
  | FetchResponse false _ => inl msg_rest
  | FetchResponse true (inl m) => inl m
  | FetchResponse true (inr definitions) =>
      let '(tables, columns) :=
        match definitions with
        | Some defs => fold_left rest_step defs ([], [])
        | None => ([], [])
        end in
      inr (mkSchema tables columns [])
  end.

(** The results of the queries [fetchSchema] sends through its client:
    [from(...).select(...)] resolves to [{ data, error }]; an [rpc] call
    rejects ([None]) or resolves with its [data]. *)
Record Queries := mkQueries {
  tables_query : option (list TableInfo.t) * option string;
  tables_rpc : option (option (list TableInfo.t));
  columns_query : option (list ColumnInfo.t) * option string;
  fk_rpc : option (option (list ForeignKeyInfo.t))
}.

(** [fetchSchema(supabase)] *)
Definition fetchSchema (q : Queries) : string + SchemaInfo :=
  let '(tables, tablesError) := tables_query q in
  let fallback :=
    match tablesError with
    | Some m =>
        let tablesResult := match tables_rpc q with Some d => d | None => None end in
        match tablesResult with
        | Some _ => None
        | None => Some ("Failed to fetch tables: " ++ m)
        end
    | None => None
    end in
  match fallback with
  | Some e => inl e
  | None =>
    let '(columns, columnsError) := columns_query q in
    match columnsError with
    | Some m => inl ("Failed to fetch columns: " ++ m)
    | None =>
      let foreignKeys :=
        match fk_rpc q with
        | Some (Some fkData) => fkData
        | _ => []
        end in
      inr (mkSchema (match tables with Some t => t | None => [] end)
                    (match columns with Some c => c | None => [] end)
                    foreignKeys)
    end
  end.

End SchemaFetch.

(** ** The schema endpoint (src/app/api/schema/route.ts) *)

Module SchemaRoute.

Local Open Scope string_scope.

Import SchemaFetch.

Inductive Response :=
| RespSchema (schema : SchemaInfo)
| RespError (status : nat) (error : string).

Definition msg_missing : string := "Missing supabaseUrl or supabaseAnonKey".

(** [POST(request)]: [body] is [await request.json()] (a rejection with a
    message, or the fields [supabaseUrl] and [supabaseAnonKey]); [fetch]
    answers the REST request for a URL and key.  The second component lists
    the REST requests made, as (URL, key). *)
Definition POST (fetch : string -> string -> FetchOutcome)
    (body : string + (option string * option string)) : Response * list (string * string) :=
  match body with
  | inl m => (RespError 500 m, [])
  | inr (url, key) =>
    if negb (Agent.truthy url) || negb (Agent.truthy key) then (RespError 400 msg_missing, [])
    else
      let url := Agent.opt_str url in
      let key := Agent.opt_str key in
      let endpoint := url ++ "/rest/v1/" in
      match fetchSchemaViaRest (fetch endpoint key) with
      | inl m => (RespError 500 m, [(endpoint, key)])
      | inr schema => (RespSchema schema, [(endpoint, key)])
      end
  end.

End SchemaRoute.

(** ** Browser storage (src/lib/storage.ts) *)

Module Storage.

Local Open Scope string_scope.

Definition CREDENTIALS_KEY : string := "supabase-query-agent-credentials".
Definition SCHEMA_KEY : string := "supabase-query-agent-schema".

(** [localStorage]: string keys to string values; [None] when
    [typeof window === 'undefined'] (server side) *)
Definition Browser := option Schema.files.

Fixpoint removeItem (k : string) (o : Schema.files) : Schema.files :=
  match o with
  | [] => []
  | (k', v) :: r => if String.eqb k k' then removeItem k r else (k', v) :: removeItem k r
  end.

Section Json.

(** [JSON.stringify] and [JSON.parse] at the two stored types ([None]: the
    parse throws) *)
Variable stringifyCredentials : Route.Credentials -> string.
Variable parseCredentials : string -> option Route.Credentials.
Variable stringifySchema : SchemaInfo -> string.
Variable parseSchema : string -> option SchemaInfo.

Definition saveCredentials (credentials : Route.Credentials) (b : Browser) : Browser :=
  match b with
  | None => None
  | Some ls => Some (Schema.obj_set CREDENTIALS_KEY (stringifyCredentials credentials) ls)
  end.

Definition getCredentials (b : Browser) : option Route.Credentials :=
  match b with
  | None => None
  | Some ls =>
      match Schema.obj_get CREDENTIALS_KEY ls with
      | None => None
      | Some stored => if String.eqb stored "" then None else parseCredentials stored
      end
  end.

Definition clearCredentials (b : Browser) : Browser :=
  match b with
  | None => None
  | Some ls => Some (removeItem SCHEMA_KEY (removeItem CREDENTIALS_KEY ls))
  end.

Definition saveSchema (schema : SchemaInfo) (b : Browser) : Browser :=
  match b with
  | None => None
  | Some ls => Some (Schema.obj_set SCHEMA_KEY (stringifySchema schema) ls)
  end.

Definition getSchema (b : Browser) : option SchemaInfo :=
  match b with
  | None => None
  | Some ls =>
      match Schema.obj_get SCHEMA_KEY ls with
      | None => None
      | Some stored => if String.eqb stored "" then None else parseSchema stored
      end
  end.

Definition hasCredentials (b : Browser) : bool :=
  match getCredentials b with Some _ => true | None => false end.

End Json.

End Storage.

(** * Properties *)

(** ** Lemmas on the JavaScript string built-ins *)

Module JSFacts.

Lemma startsWith_app (p r : chars) : startsWith (p ++ r) p = true.
Proof. induction p as [|c p IH]; simpl; [reflexivity|]. rewrite Ascii.eqb_refl, IH. reflexivity. Qed.

Lemma startsWith_shorten (l r p : chars) :
  startsWith (l ++ r) p = true -> length p <= length l -> startsWith l p = true.
Proof.
  revert l. induction p as [|c p IH]; intros l H Hlen; [destruct l; reflexivity|].
  destruct l as [|d l]; simpl in *; [lia|].
  apply andb_true_iff in H as [H1 H2]. rewrite H1, (IH l H2); [reflexivity|lia].
Qed.

Lemma startsWith_app_pat (s p q : chars) :
  startsWith s (p ++ q) = true -> startsWith s p = true.
Proof.
  revert s. induction p as [|c p IH]; intros s H; [destruct s; reflexivity|].
  destruct s as [|d s]; simpl in *; [discriminate|].
  apply andb_true_iff in H as [H1 H2]. rewrite H1, (IH s H2). reflexivity.
Qed.

Lemma startsWith_true (s p : chars) : startsWith s p = true -> exists r, s = p ++ r.
Proof.
  revert s. induction p as [|c p IH]; intros s H; [exists s; reflexivity|].
  destruct s as [|d s]; simpl in *; [discriminate|].
  apply andb_true_iff in H as [H1 H2]. apply Ascii.eqb_eq in H1. subst d.
  destruct (IH s H2) as [r ->]. exists r. reflexivity.
Qed.

Lemma includes_mid (a p b : chars) : includes (a ++ p ++ b) p = true.
Proof.
  induction a as [|c a IH].
  - simpl app. pose proof (startsWith_app p b) as H.
    destruct (p ++ b); simpl; rewrite H; reflexivity.
  - simpl. rewrite IH. apply orb_true_r.
Qed.

Lemma includes_true (s p : chars) : includes s p = true -> exists a b, s = a ++ p ++ b.
Proof.
  induction s as [|c s IH]; intros H.
  - simpl in H. rewrite orb_false_r in H. apply startsWith_true in H as [r Hr].
    exists [], r. exact Hr.
  - simpl in H. apply orb_true_iff in H as [H|H].
    + apply startsWith_true in H as [r Hr]. exists [], r. exact Hr.
    + destruct (IH H) as [a [b ->]]. exists (c :: a), b. reflexivity.
Qed.

Lemma includes_single (s : chars) (c : ascii) : includes s [c] = true <-> In c s.
Proof.
  split.
  - intros H. apply includes_true in H as [a [b ->]]. apply in_or_app. right. left. reflexivity.
  - intros H. apply in_split in H as [a [b ->]]. apply (includes_mid a [c] b).
Qed.

(** *** [trim] *)

Lemma trim_start_split (s : chars) : exists l, s = l ++ trim_start s /\ all_ws l.
Proof.
  induction s as [|c s IH]; [exists []; split; [reflexivity|constructor]|].
  simpl. destruct (is_ws c) eqn:E.
  - destruct IH as [l [Hl Hws]]. exists (c :: l). split; [simpl; f_equal; exact Hl|].
    constructor; assumption.
  - exists []. split; [reflexivity|constructor].
Qed.

Lemma trim_split (s : chars) :
  exists l r, s = l ++ trim s ++ r /\ all_ws l /\ all_ws r.
Proof.
  destruct (trim_start_split s) as [l [Hl Hwl]].
  destruct (trim_start_split (rev (trim_start s))) as [l2 [Hl2 Hwl2]].
  exists l, (rev l2). split; [|split; [exact Hwl|apply Forall_rev; exact Hwl2]].
  unfold trim, trim_end.
  assert (E : trim_start s = rev (trim_start (rev (trim_start s))) ++ rev l2).
  { rewrite <- rev_app_distr, <- Hl2, rev_involutive. reflexivity. }
  rewrite <- E. exact Hl.
Qed.

Lemma trim_start_infix (a w b : chars) :
  match w with c :: _ => is_ws c = false | [] => False end ->
  exists a', trim_start (a ++ w ++ b) = a' ++ w ++ b.
Proof.
  intros Hw. induction a as [|c a IH].
  - exists []. destruct w as [|c w]; [contradiction|]. simpl. rewrite Hw. reflexivity.
  - simpl. destruct (is_ws c); [exact IH|]. exists (c :: a). reflexivity.
Qed.

Lemma trim_infix (a w b : chars) :
  match w with c :: _ => is_ws c = false | [] => False end ->
  match rev w with c :: _ => is_ws c = false | [] => False end ->
  exists a' b', trim (a ++ w ++ b) = a' ++ w ++ b'.
Proof.
  intros Hh Ht. unfold trim, trim_end.
  destruct (trim_start_infix a w b Hh) as [a' ->].
  rewrite rev_app_distr, rev_app_distr, <- app_assoc.
  destruct (trim_start_infix (rev b) (rev w) (rev a') Ht) as [b' ->].
  exists a', (rev b'). rewrite rev_app_distr, rev_app_distr, !rev_involutive, app_assoc.
  reflexivity.
Qed.

(** *** Character facts, checked over all 256 characters *)

Ltac all_chars c := destruct c as [[] [] [] [] [] [] [] []].

Lemma upper_eqb_squote (c : ascii) : Ascii.eqb (upper c) "'"%char = Ascii.eqb c "'"%char.
Proof. all_chars c; reflexivity. Qed.

Lemma upper_eqb_dquote (c : ascii) : Ascii.eqb (upper c) "034"%char = Ascii.eqb c "034"%char.
Proof. all_chars c; reflexivity. Qed.

Lemma upper_eqb_semicolon (c : ascii) : Ascii.eqb (upper c) ";"%char = Ascii.eqb c ";"%char.
Proof. all_chars c; reflexivity. Qed.

Lemma ws_not (q : ascii) (c : ascii) :
  In q ["'"%char; "034"%char; ";"%char] -> is_ws c = true -> Ascii.eqb c q = false.
Proof.
  intros Hq. destruct Hq as [<-|[<-|[<-|[]]]];
    all_chars c; vm_compute; intros H; first [reflexivity | discriminate H].
Qed.

Lemma all_ws_not (q : ascii) (l : chars) :
  In q ["'"%char; "034"%char; ";"%char] -> all_ws l -> forall c, In c l -> Ascii.eqb c q = false.
Proof.
  intros Hq Hl c Hc. unfold all_ws in Hl. rewrite Forall_forall in Hl. apply ws_not; auto.
Qed.

(** *** Quote stripping *)

Lemma strip_go_suffix (q : ascii) (buf : option chars) (s w : chars) :
  (forall c, In c w -> Ascii.eqb c q = false) ->
  strip_go q buf (s ++ w) = strip_go q buf s ++ w.
Proof.
  intros Hw. revert buf. induction s as [|c s IH]; intros buf.
  - simpl. revert buf. induction w as [|c w IHw]; intros buf.
    + destruct buf; simpl; rewrite ?app_nil_r; reflexivity.
    + assert (Hc : Ascii.eqb c q = false) by (apply Hw; left; reflexivity).
      assert (IH' := IHw (fun d Hd => Hw d (or_intror Hd))).
      destruct buf as [b|]; simpl; rewrite Hc, IH'; simpl.
      * rewrite <- app_assoc. reflexivity.
      * reflexivity.
  - destruct buf as [b|]; simpl; destruct (Ascii.eqb c q); rewrite ?IH; reflexivity.
Qed.

Lemma strip_go_prefix (q : ascii) (l s : chars) :
  (forall c, In c l -> Ascii.eqb c q = false) ->
  strip_go q None (l ++ s) = l ++ strip_go q None s.
Proof.
  induction l as [|c l IH]; intros Hl; [reflexivity|].
  simpl. rewrite (Hl c (or_introl eq_refl)), IH; [reflexivity|].
  intros d Hd. apply Hl. right. exact Hd.
Qed.

Lemma strip_go_upper (q : ascii) (buf : option chars) (s : chars) :
  (forall c, Ascii.eqb (upper c) q = Ascii.eqb c q) ->
  strip_go q (option_map (map upper) buf) (map upper s) = map upper (strip_go q buf s).
Proof.
  intros Hq. revert buf. induction s as [|c s IH]; intros buf.
  - destruct buf; simpl; rewrite ?map_rev; reflexivity.
  - destruct buf as [b|]; simpl; rewrite Hq; destruct (Ascii.eqb c q); simpl;
      try rewrite <- IH; reflexivity.
Qed.

End JSFacts.

(** ** The validator *)

Module ValidatorFacts.

Import JSFacts.

Ltac msg_neq := unfold msg_keyword, msg_only_select, msg_multiple, msg_comments; simpl;
  intros ?; discriminate.

Lemma includes_normalize (w : chars) (sql : string) :
  In w [list_ascii_of_string "--"; list_ascii_of_string "/*"] ->
  includes (list_ascii_of_string sql) w = true -> includes (normalize sql) w = true.
Proof.
  intros Hw H. apply includes_true in H as [a [b Hs]].
  assert (Hinf : exists a' b', trim (list_ascii_of_string sql) = a' ++ w ++ b').
  { rewrite Hs. apply trim_infix;
      destruct Hw as [<-|[<-|[]]]; reflexivity. }
  destruct Hinf as [a' [b' Ht]].
  unfold normalize, toUpperCase. rewrite Ht, !map_app.
  assert (Hu : map upper w = w) by (destruct Hw as [<-|[<-|[]]]; reflexivity).
  rewrite Hu. apply includes_mid.
Qed.

Lemma strip_go_upper_none (q : ascii) (s : chars) :
  (forall c, Ascii.eqb (upper c) q = Ascii.eqb c q) ->
  strip_go q None (map upper s) = map upper (strip_go q None s).
Proof. intros Hq. exact (strip_go_upper q None s Hq). Qed.

Lemma in_semicolon_upper (x : chars) : In semicolon x -> In semicolon (map upper x).
Proof.
  intros H. change semicolon with (upper semicolon). apply in_map. exact H.
Qed.

Lemma without_strings_normalize (sql : string) :
  includes (without_strings (list_ascii_of_string sql)) [semicolon] = true ->
  includes (without_strings (normalize sql)) [semicolon] = true.
Proof.
  rewrite !includes_single. intros H.
  destruct (trim_split (list_ascii_of_string sql)) as [l [r [Hs [Hl Hr]]]].
  set (m := trim (list_ascii_of_string sql)) in *.
  assert (Hsq : forall c, In c l -> Ascii.eqb c squote = false)
    by (apply all_ws_not; [left|]; auto).
  assert (Hdq : forall c, In c l -> Ascii.eqb c dquote = false)
    by (apply all_ws_not; [right; left|]; auto).
  assert (Hsq' : forall c, In c r -> Ascii.eqb c squote = false)
    by (apply all_ws_not; [left|]; auto).
  assert (Hdq' : forall c, In c r -> Ascii.eqb c dquote = false)
    by (apply all_ws_not; [right; left|]; auto).
  unfold without_strings, strip_quoted in H. rewrite Hs in H.
  rewrite (strip_go_prefix squote l (m ++ r) Hsq), (strip_go_suffix squote None m r Hsq') in H.
  rewrite (strip_go_prefix dquote l _ Hdq), (strip_go_suffix dquote None _ r Hdq') in H.
  apply in_app_or in H as [H|H].
  - exfalso. pose proof (all_ws_not semicolon l (or_intror (or_intror (or_introl eq_refl))) Hl _ H).
    rewrite Ascii.eqb_refl in H0. discriminate.
  - apply in_app_or in H as [H|H].
    + unfold without_strings, strip_quoted, normalize, toUpperCase. fold m.
      rewrite (strip_go_upper_none squote), (strip_go_upper_none dquote)
        by (exact upper_eqb_squote || exact upper_eqb_dquote).
      apply in_semicolon_upper. exact H.
    + exfalso. pose proof (all_ws_not semicolon r (or_intror (or_intror (or_introl eq_refl))) Hr _ H).
      rewrite Ascii.eqb_refl in H0. discriminate.
Qed.

(** What an accepted query satisfies: every rule passed. *)
Lemma valid_inv (sql : string) :
  valid (validateSqlQuery sql) = true ->
  starts_ok (normalize sql) = true /\
  first_forbidden dangerousKeywords (normalize sql) = None /\
  includes (without_strings (normalize sql)) [semicolon] = false /\
  has_comment (normalize sql) = false.
Proof.
  intros H. unfold validateSqlQuery in H. cbv zeta in H.
  destruct (starts_ok (normalize sql)); cbn [negb valid] in H; [|discriminate H].
  destruct (first_forbidden dangerousKeywords (normalize sql)); cbn [valid] in H;
    [discriminate H|].
  destruct (includes (without_strings (normalize sql)) [semicolon]); cbn [valid] in H;
    [discriminate H|].
  destruct (has_comment (normalize sql)); cbn [valid] in H; [discriminate H|].
  auto.
Qed.

Lemma strip_ends_with (q : ascii) (p : chars) (c : ascii) :
  Ascii.eqb c q = false -> strip_quoted q (p ++ [c]) = strip_quoted q p ++ [c].
Proof.
  intros H. unfold strip_quoted. apply strip_go_suffix.
  intros d [<-|[]]. exact H.
Qed.

(** The keyword reported by the keyword loop is a listed keyword whose
    regular expression matches the text. *)
Lemma first_forbidden_some (kws : list string) (t : chars) (k : string) :
  first_forbidden kws t = Some k ->
  In k kws /\ word_regex_test (list_ascii_of_string k) t = true.
Proof.
  induction kws as [|kw kws IH]; cbn [first_forbidden]; [discriminate|].
  destruct (word_regex_test (list_ascii_of_string kw) t) eqn:E.
  - intros H. injection H as <-. split; [left; reflexivity | exact E].
  - intros H. destruct (IH H) as [Hin Hw]. split; [right; exact Hin | exact Hw].
Qed.

Lemma string_length_append (a b : string) :
  String.length (a ++ b) = String.length a + String.length b.
Proof. induction a as [|c a IH]; simpl; [reflexivity | rewrite IH; reflexivity]. Qed.

Lemma string_app_inv_l (p a b : string) : (p ++ a = p ++ b)%string -> a = b.
Proof. induction p as [|c p IH]; simpl; [auto|]. intros H. injection H. exact IH. Qed.

Lemma string_app_inv_r (a b s : string) : (a ++ s = b ++ s)%string -> a = b.
Proof.
  revert b. induction a as [|c a IH]; intros [|d b]; simpl; intros H.
  - reflexivity.
  - apply (f_equal String.length) in H. simpl in H. rewrite string_length_append in H. lia.
  - apply (f_equal String.length) in H. simpl in H. rewrite string_length_append in H. lia.
  - injection H as -> H. f_equal. apply IH. exact H.
Qed.

(** The keyword message determines the keyword. *)
Lemma msg_keyword_inj (k k' : string) : msg_keyword k = msg_keyword k' -> k = k'.
Proof.
  unfold msg_keyword. intros H.
  apply string_app_inv_l in H. apply string_app_inv_r in H. exact H.
Qed.

Lemma upper_semicolon (c : ascii) : upper c = semicolon -> c = semicolon.
Proof. all_chars c; vm_compute; intros H; first [reflexivity | discriminate H]. Qed.

(** The converse of [without_strings_normalize]: trimming and upper-casing
    neither add a semicolon outside quotes nor remove one. *)
Lemma without_strings_normalize_rev (sql : string) :
  includes (without_strings (normalize sql)) [semicolon] = true ->
  includes (without_strings (list_ascii_of_string sql)) [semicolon] = true.
Proof.
  rewrite !includes_single. intros H.
  destruct (trim_split (list_ascii_of_string sql)) as [l [r [Hs [Hl Hr]]]].
  set (m := trim (list_ascii_of_string sql)) in *.
  assert (Hsq : forall c, In c l -> Ascii.eqb c squote = false)
    by (apply all_ws_not; [left|]; auto).
  assert (Hdq : forall c, In c l -> Ascii.eqb c dquote = false)
    by (apply all_ws_not; [right; left|]; auto).
  assert (Hsq' : forall c, In c r -> Ascii.eqb c squote = false)
    by (apply all_ws_not; [left|]; auto).
  assert (Hdq' : forall c, In c r -> Ascii.eqb c dquote = false)
    by (apply all_ws_not; [right; left|]; auto).
  unfold without_strings, strip_quoted, normalize, toUpperCase in H. fold m in H.
  rewrite (strip_go_upper_none squote), (strip_go_upper_none dquote) in H
    by (exact upper_eqb_squote || exact upper_eqb_dquote).
  apply in_map_iff in H as [c [Hc Hin]]. apply upper_semicolon in Hc. subst c.
  unfold without_strings, strip_quoted. rewrite Hs.
  rewrite (strip_go_prefix squote l (m ++ r) Hsq), (strip_go_suffix squote None m r Hsq').
  rewrite (strip_go_prefix dquote l _ Hdq), (strip_go_suffix dquote None _ r Hdq').
  apply in_or_app. right. apply in_or_app. left. exact Hin.
Qed.

End ValidatorFacts.

(** ** Claims on the validator *)

Import JSFacts ValidatorFacts.

(** Sample runs of [validateSqlQuery]. *)
Example v1 : validateSqlQuery "SELECT id, name FROM users LIMIT 10" = mk_outcome true None.
Proof. vm_compute. reflexivity. Qed.
Example v2 : validateSqlQuery "DROP TABLE users;" = mk_outcome false (Some msg_only_select).
Proof. vm_compute. reflexivity. Qed.
Example v3 : validateSqlQuery "SELECT 1; SELECT 2;" = mk_outcome false (Some msg_multiple).
Proof. vm_compute. reflexivity. Qed.
Example v4 : validateSqlQuery "SELECT 'a;b'" = mk_outcome true None.
Proof. vm_compute. reflexivity. Qed.
Example v5 : validateSqlQuery "  select * from t -- x" = mk_outcome false (Some msg_comments).
Proof. vm_compute. reflexivity. Qed.
Example v6 : validateSqlQuery "SELECT * FROM t WHERE x = 1; DROP TABLE t" = mk_outcome false (Some (msg_keyword "DROP")).
Proof. vm_compute. reflexivity. Qed.
Example v7 : validateSqlQuery "SELECT offset, reset_at FROM t" = mk_outcome true None.
Proof. vm_compute. reflexivity. Qed.
Example v8 : validateSqlQuery "SELECT a FROM t ORDER BY x SET" = mk_outcome false (Some (msg_keyword "SET")).
Proof. vm_compute. reflexivity. Qed.

(** C1 (as stated, refuted): [DROP TABLE users;] begins with the mutating
    keyword DROP, yet the reason of its rejection does not name DROP: the
    SELECT/WITH start rule fires first. *)
Lemma C1_drop_reason_not_keyword :
  ~ (forall (sql kw : string),
       In kw dangerousKeywords ->
       startsWith (list_ascii_of_string sql) (list_ascii_of_string kw) = true ->
       valid (validateSqlQuery sql) = false /\
       exists m, error (validateSqlQuery sql) = Some m /\
                 includes (list_ascii_of_string m) (list_ascii_of_string kw) = true).
Proof.
  intros H.
  destruct (H "DROP TABLE users;"%string "DROP"%string) as [_ [m [Hm Hinc]]];
    [simpl; tauto | reflexivity |].
  vm_compute in Hm. injection Hm as <-. vm_compute in Hinc. discriminate Hinc.
Qed.

(** C1 (amended): every SQL string whose trimmed, upper-cased text begins
    with one of the forbidden keywords is rejected by the first rule, with
    the reason "Only SELECT queries are allowed. Query must start with SELECT
    or WITH." (which names no keyword); a reason naming a keyword [kw] is
    only given when the trimmed, upper-cased text starts with SELECT or WITH,
    [kw] is a forbidden keyword and the text contains [kw] as a whole word
    (the test [\bKW\b] succeeds). *)
Theorem validate_mutating_prefix (sql kw : string) (r : chars) :
  (In kw dangerousKeywords ->
   normalize sql = list_ascii_of_string kw ++ r ->
   validateSqlQuery sql = mk_outcome false (Some msg_only_select)) /\
  (error (validateSqlQuery sql) = Some (msg_keyword kw) ->
   starts_ok (normalize sql) = true /\ In kw dangerousKeywords /\
   word_regex_test (list_ascii_of_string kw) (normalize sql) = true).
Proof.
  split.
  - intros Hkw Hn. unfold validateSqlQuery. cbv zeta. rewrite Hn.
    simpl in Hkw.
    repeat (destruct Hkw as [<-|Hkw]; [reflexivity|]). contradiction.
  - unfold validateSqlQuery. cbv zeta.
    destruct (starts_ok (normalize sql)); cbn [negb error];
      [|intros E; injection E; msg_neq].
    destruct (first_forbidden dangerousKeywords (normalize sql)) as [k|] eqn:Ef;
      cbn [error].
    + intros E. assert (Ek : k = kw) by (apply msg_keyword_inj; congruence). subst k.
      split; [reflexivity|]. apply first_forbidden_some. exact Ef.
    + destruct (includes (without_strings (normalize sql)) [semicolon]); cbn [error];
        [intros E; injection E; msg_neq|].
      destruct (has_comment (normalize sql)); cbn [error];
        [intros E; injection E; msg_neq | discriminate].
Qed.

Lemma validate_mutating_prefix_witness :
  (normalize "  drop table users;" = list_ascii_of_string "DROP" ++ list_ascii_of_string " TABLE USERS;" /\
   validateSqlQuery "  drop table users;" = mk_outcome false (Some msg_only_select)) /\
  (error (validateSqlQuery "SELECT a FROM t ORDER BY x set") = Some (msg_keyword "SET") /\
   starts_ok (normalize "SELECT a FROM t ORDER BY x set") = true /\ In "SET"%string dangerousKeywords /\
   word_regex_test (list_ascii_of_string "SET") (normalize "SELECT a FROM t ORDER BY x set") = true).
Proof.
  split.
  - split; [vm_compute; reflexivity|].
    apply (proj1 (validate_mutating_prefix "  drop table users;" "DROP" (list_ascii_of_string " TABLE USERS;"))).
    + simpl. tauto.
    + vm_compute. reflexivity.
  - assert (E : error (validateSqlQuery "SELECT a FROM t ORDER BY x set") = Some (msg_keyword "SET"))
      by (vm_compute; reflexivity).
    split; [exact E|].
    exact (proj2 (validate_mutating_prefix "SELECT a FROM t ORDER BY x set" "SET" []) E).
Defined.

(** C3 (as stated, refuted): [SELECT 1; -- x] contains [--] after a SELECT
    prefix but is rejected for its semicolon, not for the comment. *)
Lemma C3_comment_reason_preempted :
  ~ (forall sql : string,
       includes (list_ascii_of_string sql) (list_ascii_of_string "--") = true ->
       startsWith (list_ascii_of_string sql) (list_ascii_of_string "SELECT") = true ->
       validateSqlQuery sql = mk_outcome false (Some msg_comments)).
Proof.
  intros H. specialize (H "SELECT 1; -- x"%string eq_refl eq_refl).
  vm_compute in H. discriminate H.
Qed.

(** C3 (amended): every input containing [--] or [/*] is rejected; the
    reason cites comments exactly when the earlier rules (SELECT/WITH start,
    forbidden keyword, semicolon outside quotes) all pass; otherwise the
    reason is the one of the first earlier rule that fails, so that
    [SELECT 1; -- x] is rejected citing multiple statements. *)
Theorem validate_comment_rejected (sql : string) :
  (includes (list_ascii_of_string sql) (list_ascii_of_string "--") = true \/
   includes (list_ascii_of_string sql) (list_ascii_of_string "/*") = true) ->
  valid (validateSqlQuery sql) = false /\
  (error (validateSqlQuery sql) = Some msg_comments <->
     starts_ok (normalize sql) = true /\
     first_forbidden dangerousKeywords (normalize sql) = None /\
     includes (without_strings (normalize sql)) [semicolon] = false) /\
  error (validateSqlQuery sql) =
    Some (if negb (starts_ok (normalize sql)) then msg_only_select else
          match first_forbidden dangerousKeywords (normalize sql) with
          | Some kw => msg_keyword kw
          | None =>
              if includes (without_strings (normalize sql)) [semicolon]
              then msg_multiple else msg_comments
          end) /\
  validateSqlQuery "SELECT 1; -- x" = mk_outcome false (Some msg_multiple).
Proof.
  intros Hin.
  assert (Hc : has_comment (normalize sql) = true).
  { unfold has_comment. apply orb_true_iff.
    destruct Hin as [H|H]; [left|right]; apply includes_normalize; auto; simpl; auto. }
  assert (Hex : validateSqlQuery "SELECT 1; -- x" = mk_outcome false (Some msg_multiple))
    by (vm_compute; reflexivity).
  assert (E : validateSqlQuery sql = mk_outcome false
    (Some (if negb (starts_ok (normalize sql)) then msg_only_select else
           match first_forbidden dangerousKeywords (normalize sql) with
           | Some kw => msg_keyword kw
           | None =>
               if includes (without_strings (normalize sql)) [semicolon]
               then msg_multiple else msg_comments
           end))).
  { unfold validateSqlQuery. cbv zeta.
    destruct (starts_ok (normalize sql)); cbn [negb]; [|reflexivity].
    destruct (first_forbidden dangerousKeywords (normalize sql)); [reflexivity|].
    destruct (includes (without_strings (normalize sql)) [semicolon]); [reflexivity|].
    rewrite Hc. reflexivity. }
  rewrite E. cbn [valid error].
  split; [reflexivity|]. split; [|split; [reflexivity | exact Hex]].
  destruct (starts_ok (normalize sql)); cbn [negb].
  - destruct (first_forbidden dangerousKeywords (normalize sql)) as [kw|].
    + split; [intros E'; injection E'; msg_neq | intros (_ & ? & _); discriminate].
    + destruct (includes (without_strings (normalize sql)) [semicolon]).
      * split; [intros E'; injection E'; msg_neq | intros (_ & _ & ?); discriminate].
      * tauto.
  - split; [intros E'; injection E'; msg_neq | intros (? & _); discriminate].
Qed.

Lemma validate_comment_rejected_witness :
  valid (validateSqlQuery "SELECT a FROM t /* x") = false /\
  error (validateSqlQuery "SELECT a FROM t; -- x") = Some msg_multiple.
Proof.
  split.
  - refine (proj1 (validate_comment_rejected "SELECT a FROM t /* x" _)).
    right. vm_compute. reflexivity.
  - rewrite (proj1 (proj2 (proj2 (validate_comment_rejected "SELECT a FROM t; -- x"
                                   (or_introl eq_refl))))).
    vm_compute. reflexivity.
Defined.

(** C4 (as stated, refuted): [SELECT 1; DROP TABLE t] keeps a semicolon
    after quote stripping, but its reason names the keyword DROP, not
    multiple statements. *)
Lemma C4_semicolon_reason_preempted :
  ~ (forall sql : string,
       includes (without_strings (list_ascii_of_string sql)) [semicolon] = true ->
       validateSqlQuery sql = mk_outcome false (Some msg_multiple)).
Proof.
  intros H. specialize (H "SELECT 1; DROP TABLE t"%string eq_refl).
  vm_compute in H. discriminate H.
Qed.

(** C4 (amended): every input that, after stripping single- and
    double-quoted spans, still contains a semicolon is rejected; the reason
    cites multiple statements exactly when the SELECT/WITH start rule and
    the forbidden-keyword rule pass, so that [SELECT 1; DROP TABLE t] is
    rejected naming DROP.  A semicolon inside a quoted span never triggers
    the multiple-statement rule: when no semicolon is left after stripping,
    the reason is never "Multiple SQL statements are not allowed." and the
    query is accepted as soon as the other rules pass ([SELECT 'a;b'] is
    accepted, [SELECT 'a;b' -- x] is rejected for its comment). *)
Theorem validate_semicolon_rejected (sql : string) :
  (includes (without_strings (list_ascii_of_string sql)) [semicolon] = true ->
   valid (validateSqlQuery sql) = false /\
   (error (validateSqlQuery sql) = Some msg_multiple <->
      starts_ok (normalize sql) = true /\
      first_forbidden dangerousKeywords (normalize sql) = None)) /\
  (includes (without_strings (list_ascii_of_string sql)) [semicolon] = false ->
   error (validateSqlQuery sql) <> Some msg_multiple /\
   (starts_ok (normalize sql) = true ->
    first_forbidden dangerousKeywords (normalize sql) = None ->
    has_comment (normalize sql) = false ->
    validateSqlQuery sql = mk_outcome true None)) /\
  validateSqlQuery "SELECT 1; DROP TABLE t" = mk_outcome false (Some (msg_keyword "DROP")) /\
  validateSqlQuery "SELECT 'a;b'" = mk_outcome true None /\
  validateSqlQuery "SELECT 'a;b' -- x" = mk_outcome false (Some msg_comments).
Proof.
  split; [|split; [|split; [|split]]]; [| |vm_compute; reflexivity..].
  - intros Hin. apply without_strings_normalize in Hin.
    unfold validateSqlQuery; cbv zeta;
      (destruct (starts_ok (normalize sql)); cbn [negb valid error];
       [destruct (first_forbidden dangerousKeywords (normalize sql)) as [kw|];
        cbn [valid error]; [|rewrite Hin; cbn [valid error]]|]).
    + split; [reflexivity|].
      split; [intros E; injection E; msg_neq | intros (_ & ?); discriminate].
    + split; [reflexivity|]. tauto.
    + split; [reflexivity|].
      split; [intros E; injection E; msg_neq | intros (? & _); discriminate].
  - intros Hno.
    assert (Hn : includes (without_strings (normalize sql)) [semicolon] = false).
    { destruct (includes (without_strings (normalize sql)) [semicolon]) eqn:E; [|reflexivity].
      rewrite (without_strings_normalize_rev sql E) in Hno. discriminate Hno. }
    unfold validateSqlQuery. cbv zeta. rewrite Hn.
    destruct (starts_ok (normalize sql)); cbn [negb error].
    + destruct (first_forbidden dangerousKeywords (normalize sql)) as [kw|]; cbn [error].
      * split; [intros E; injection E; msg_neq | intros _ H; discriminate H].
      * destruct (has_comment (normalize sql)); cbn [error].
        -- split; [intros E; injection E; msg_neq | intros _ _ H; discriminate H].
        -- split; [discriminate | reflexivity].
    + split; [intros E; injection E; msg_neq | intros H; discriminate H].
Qed.

Lemma validate_semicolon_rejected_witness :
  valid (validateSqlQuery "SELECT 1; SELECT 2;") = false /\
  error (validateSqlQuery "SELECT 'a;b' FROM t") <> Some msg_multiple /\
  validateSqlQuery "SELECT 'a;b' FROM t" = mk_outcome true None.
Proof.
  split; [|split].
  - refine (proj1 (proj1 (validate_semicolon_rejected "SELECT 1; SELECT 2;") _)).
    vm_compute. reflexivity.
  - refine (proj1 (proj1 (proj2 (validate_semicolon_rejected "SELECT 'a;b' FROM t")) _)).
    vm_compute. reflexivity.
  - apply (proj2 (proj1 (proj2 (validate_semicolon_rejected "SELECT 'a;b' FROM t")) eq_refl));
      vm_compute; reflexivity.
Defined.

(** C10: an accepted query's trimmed text does not end with a semicolon,
    so the endpoint's [trim().replace(/;+$/, '')] returns the trimmed
    query unchanged; [SELECT 1;] is rejected by the multiple-statement
    rule. *)
Theorem validated_sql_no_trailing_semicolon (sql : string) :
  valid (validateSqlQuery sql) = true ->
  (forall p, trim (list_ascii_of_string sql) <> p ++ [semicolon]) /\
  Route.cleanSql sql = Route.trim_s sql /\
  validateSqlQuery "SELECT 1;" = mk_outcome false (Some msg_multiple).
Proof.
  intros Hv. destruct (valid_inv sql Hv) as (_ & _ & Hsemi & _).
  assert (Hend : forall p, trim (list_ascii_of_string sql) <> p ++ [semicolon]).
  { intros p Hp. apply not_true_iff_false in Hsemi.
    unfold normalize, toUpperCase in Hsemi. rewrite Hp, map_app in Hsemi.
    change (map upper [semicolon]) with [semicolon] in Hsemi.
    unfold without_strings in Hsemi.
    rewrite (strip_ends_with squote _ semicolon eq_refl),
            (strip_ends_with dquote _ semicolon eq_refl) in Hsemi.
    apply Hsemi, includes_single, in_or_app. right. left. reflexivity. }
  split; [exact Hend|]. split; [|vm_compute; reflexivity].
  unfold Route.cleanSql, Route.trim_s, Route.drop_semis. f_equal.
  set (x := trim (list_ascii_of_string sql)) in *.
  destruct (rev x) as [|c r] eqn:E.
  - apply (f_equal (@rev ascii)) in E. rewrite rev_involutive in E. rewrite E. reflexivity.
  - destruct (Ascii.eqb c semicolon) eqn:Ec.
    + apply Ascii.eqb_eq in Ec. subst c. exfalso. apply (Hend (rev r)).
      apply (f_equal (@rev ascii)) in E. rewrite rev_involutive in E. exact E.
    + simpl. change ";"%char with semicolon. rewrite Ec.
      rewrite <- E, rev_involutive. reflexivity.
Qed.

Lemma validated_sql_no_trailing_semicolon_witness :
  Route.cleanSql "  SELECT id FROM users LIMIT 10 " = "SELECT id FROM users LIMIT 10"%string.
Proof.
  destruct (validated_sql_no_trailing_semicolon "  SELECT id FROM users LIMIT 10 "
              ltac:(vm_compute; reflexivity)) as (_ & E & _).
  rewrite E. vm_compute. reflexivity.
Defined.

(** ** The schema materializer *)

Module SchemaFacts.

Import Schema.

Lemma string_app_assoc (a b c : string) : ((a ++ b) ++ c = a ++ (b ++ c))%string.
Proof. induction a as [|x a IH]; simpl; [reflexivity|]. rewrite IH. reflexivity. Qed.

Lemma string_app_nil_r (a : string) : (a ++ "")%string = a.
Proof. induction a as [|x a IH]; simpl; [reflexivity|]. rewrite IH. reflexivity. Qed.

Lemma list_ascii_of_string_app (a b : string) :
  list_ascii_of_string (a ++ b) = list_ascii_of_string a ++ list_ascii_of_string b.
Proof. induction a as [|x a IH]; simpl; [reflexivity|]. rewrite IH. reflexivity. Qed.

Lemma table_path_inj (a b : string) : table_path a = table_path b -> a = b.
Proof.
  unfold table_path. intros H. apply (f_equal list_ascii_of_string) in H.
  rewrite !list_ascii_of_string_app in H. simpl in H.
  injection H as H. apply app_inv_tail in H.
  rewrite <- (string_of_list_ascii_of_string a), <- (string_of_list_ascii_of_string b), H.
  reflexivity.
Qed.

Lemma obj_get_set_same (k v : string) (o : files) : obj_get k (obj_set k v o) = Some v.
Proof.
  induction o as [|[k' v'] o IH]; simpl; [rewrite String.eqb_refl; reflexivity|].
  destruct (String.eqb k k') eqn:E; simpl; rewrite ?String.eqb_refl, ?E; auto.
Qed.

Lemma obj_get_set_other (k k' v : string) (o : files) :
  k <> k' -> obj_get k (obj_set k' v o) = obj_get k o.
Proof.
  intros Hne. apply String.eqb_neq in Hne.
  induction o as [|[k1 v1] o IH]; simpl; [rewrite Hne; reflexivity|].
  destruct (String.eqb k' k1) eqn:E; simpl.
  - apply String.eqb_eq in E. subst k1. rewrite Hne. reflexivity.
  - destruct (String.eqb k k1); [reflexivity|exact IH].
Qed.

Lemma obj_set_keys (k v : string) (o : files) :
  NoDup (map fst o) -> NoDup (map fst (obj_set k v o)).
Proof.
  induction o as [|[k1 v1] o IH]; intros Hnd; simpl; [constructor; [intros []|constructor]|].
  inversion Hnd as [|? ? Hnin Hnd']; subst.
  destruct (String.eqb k k1) eqn:E; simpl.
  - apply String.eqb_eq in E. subst k1. constructor; assumption.
  - constructor; [|apply IH; assumption].
    assert (Hsub : forall x, In x (map fst (obj_set k v o)) -> x = k \/ In x (map fst o)).
    { clear. induction o as [|[k2 v2] o IH]; simpl; intros x Hx.
      - destruct Hx as [<-|[]]. left. reflexivity.
      - destruct (String.eqb k k2) eqn:E2; simpl in Hx.
        + destruct Hx as [<-|Hx]; [left; reflexivity|right; right; exact Hx].
        + destruct Hx as [<-|Hx]; [right; left; reflexivity|].
          destruct (IH x Hx); [left|right; right]; assumption. }
    intros Hin. destruct (Hsub k1 Hin) as [->|Hin']; [|contradiction].
    rewrite String.eqb_refl in E. discriminate.
Qed.

Definition table_step (sc : SchemaInfo) (fs : files) (table : TableInfo.t) : files :=
  let name := TableInfo.table_name table in
  obj_set (table_path name) (table_content table (columns_of sc name) (fks_of sc name)) fs.

Lemma fold_tables_other (sc : SchemaInfo) (n : string) (l : list TableInfo.t) (o : files) :
  (forall t, In t l -> TableInfo.table_name t <> n) ->
  obj_get (table_path n) (fold_left (table_step sc) l o) = obj_get (table_path n) o.
Proof.
  revert o. induction l as [|x l IH]; intros o Hl; [reflexivity|].
  simpl. rewrite IH by (intros t Ht; apply Hl; right; exact Ht).
  unfold table_step. apply obj_get_set_other.
  intros E. apply table_path_inj in E. apply (Hl x); [left; reflexivity|]. symmetry. exact E.
Qed.

Lemma fold_tables_get (sc : SchemaInfo) (t : TableInfo.t) (l : list TableInfo.t) (o : files) :
  In t l ->
  exists t', In t' l /\ TableInfo.table_name t' = TableInfo.table_name t /\
    obj_get (table_path (TableInfo.table_name t)) (fold_left (table_step sc) l o) =
    Some (table_content t' (columns_of sc (TableInfo.table_name t))
                           (fks_of sc (TableInfo.table_name t))).
Proof.
  revert t o. induction l as [|x l IH]; intros t o Hin; [destruct Hin|].
  simpl fold_left.
  destruct (existsb (fun y => String.eqb (TableInfo.table_name y) (TableInfo.table_name t)) l)
    eqn:Ex.
  - apply existsb_exists in Ex as [y [Hy Ey]]. apply String.eqb_eq in Ey.
    destruct (IH y (table_step sc o x) Hy) as [t' [Ht' [En Eg]]].
    rewrite Ey in En, Eg. exists t'. split; [right; exact Ht'|]. split; assumption.
  - assert (Hnot : forall y, In y l -> TableInfo.table_name y <> TableInfo.table_name t).
    { intros y Hy E. assert (Hc : existsb (fun y => String.eqb (TableInfo.table_name y)
                                                   (TableInfo.table_name t)) l = true).
      { apply existsb_exists. exists y. split; [exact Hy|]. apply String.eqb_eq. exact E. }
      rewrite Hc in Ex. discriminate. }
    rewrite (fold_tables_other sc _ l _ Hnot).
    destruct Hin as [<-|Hin]; [|exfalso; exact (Hnot t Hin eq_refl)].
    exists x. split; [left; reflexivity|]. split; [reflexivity|].
    unfold table_step. apply obj_get_set_same.
Qed.

Lemma fold_append_infix {A : Type} (f : A -> string) (x : A) (l : list A) (a : string) :
  In x l ->
  exists pre post, fold_left (fun acc y => (acc ++ f y)%string) l a = (pre ++ f x ++ post)%string.
Proof.
  assert (Hshift : forall l b c,
    fold_left (fun acc y => (acc ++ f y)%string) l (b ++ c)%string =
    (b ++ fold_left (fun acc y => (acc ++ f y)%string) l c)%string).
  { induction l0 as [|y l0 IH]; intros b c; simpl; [reflexivity|].
    rewrite string_app_assoc. apply IH. }
  revert a. induction l as [|y l IH]; intros a Hin; [destruct Hin|].
  simpl. destruct Hin as [->|Hin].
  - exists a, (fold_left (fun acc y => (acc ++ f y)%string) l ""%string).
    rewrite <- (string_app_nil_r (a ++ f x)), Hshift, string_app_assoc. reflexivity.
  - apply IH. exact Hin.
Qed.

Lemma fold_keys {A : Type} (g : files -> A -> files) (l : list A) (o : files) :
  (forall fs y, NoDup (map fst fs) -> NoDup (map fst (g fs y))) ->
  NoDup (map fst o) -> NoDup (map fst (fold_left g l o)).
Proof.
  intros Hg. revert o. induction l as [|y l IH]; intros o Ho; simpl; [exact Ho|].
  apply IH, Hg, Ho.
Qed.

Lemma fold_tables_key (sc : SchemaInfo) (k : string) (l : list TableInfo.t) (o : files) :
  (forall n, k <> table_path n) ->
  obj_get k (fold_left (table_step sc) l o) = obj_get k o.
Proof.
  intros Hk. revert o. induction l as [|x l IH]; intros o; [reflexivity|].
  simpl. rewrite IH. unfold table_step. apply obj_get_set_other, Hk.
Qed.

Lemma overview_not_table_path (n : string) : "schema/overview.md"%string <> table_path n.
Proof. unfold table_path. simpl. discriminate. Qed.

Lemma table_path_not_summary (n : string) : table_path n <> "schema/summary.md"%string.
Proof. unfold table_path. simpl. discriminate. Qed.

Lemma table_path_not_relationships (n : string) : table_path n <> "schema/relationships.md"%string.
Proof. unfold table_path. simpl. discriminate. Qed.

Lemma schemaToFiles_table (sc : SchemaInfo) (n : string) :
  obj_get (table_path n) (schemaToFiles sc) =
  obj_get (table_path n)
    (fold_left (table_step sc) (tables sc) [("schema/overview.md"%string, overview_of (tables sc))]).
Proof.
  unfold schemaToFiles. cbv zeta.
  rewrite obj_get_set_other by apply table_path_not_summary.
  destruct (Nat.ltb 0 (length (foreignKeys sc)));
    [rewrite obj_get_set_other by apply table_path_not_relationships|]; reflexivity.
Qed.

Lemma schemaToFiles_overview (sc : SchemaInfo) :
  obj_get "schema/overview.md" (schemaToFiles sc) = Some (overview_of (tables sc)).
Proof.
  unfold schemaToFiles. cbv zeta.
  rewrite obj_get_set_other by discriminate.
  destruct (Nat.ltb 0 (length (foreignKeys sc)));
    [rewrite obj_get_set_other by discriminate|];
    change (fold_left _ (tables sc) ?o) with (fold_left (table_step sc) (tables sc) o);
    rewrite fold_tables_key by apply overview_not_table_path; reflexivity.
Qed.

Lemma NoDup_map_same {A B : Type} (f : A -> B) (l : list A) (x y : A) :
  NoDup (map f l) -> In x l -> In y l -> f x = f y -> x = y.
Proof.
  induction l as [|z l IH]; intros Hnd Hx Hy E; [destruct Hx|].
  simpl in Hnd. inversion Hnd as [|? ? Hnin Hnd']; subst.
  destruct Hx as [<-|Hx]; destruct Hy as [<-|Hy]; auto.
  - exfalso. apply Hnin. rewrite E. apply in_map. exact Hy.
  - exfalso. apply Hnin. rewrite <- E. apply in_map. exact Hx.
Qed.

End SchemaFacts.

(** ** Claims on the schema materializer *)

Import SchemaFacts.

(** C7: [schemaToFiles] is deterministic: two runs on the same schema give
    the same document set, a list of (path, text) pairs with distinct paths,
    compared byte for byte. *)
Theorem schemaToFiles_deterministic (sc : SchemaInfo) (d1 d2 : Schema.files) :
  Schema.schemaToFiles sc = d1 -> Schema.schemaToFiles sc = d2 ->
  d1 = d2 /\ NoDup (map fst d1).
Proof.
  intros <- <-. split; [reflexivity|].
  unfold Schema.schemaToFiles. cbv zeta. apply obj_set_keys.
  destruct (Nat.ltb 0 (length (foreignKeys sc))); [apply obj_set_keys|];
    apply fold_keys; (intros fs y Hfs; apply obj_set_keys; exact Hfs) ||
                     (simpl; constructor; [intros []|constructor]).
Qed.

Lemma schemaToFiles_deterministic_witness :
  let sc := mkSchema [TableInfo.mk "public" "orders" "BASE TABLE"]
              [ColumnInfo.mk "public" "orders" "id" "integer" "NO" None None] [] in
  Schema.schemaToFiles sc = Schema.schemaToFiles sc /\
  NoDup (map fst (Schema.schemaToFiles sc)).
Proof.
  intros sc. split; [reflexivity|].
  exact (proj2 (schemaToFiles_deterministic sc _ _ eq_refl eq_refl)).
Defined.

(** C9: a table without columns still gets its document at
    [schema/tables/<name>.md], whose column table has no rows (the document
    of the last table carrying that name, which is the table itself when
    names are distinct), and it is listed in [schema/overview.md]. *)
Theorem zero_column_table_documented (sc : SchemaInfo) (t : TableInfo.t) :
  In t (tables sc) ->
  Schema.columns_of sc (TableInfo.table_name t) = [] ->
  (exists t', In t' (tables sc) /\ TableInfo.table_name t' = TableInfo.table_name t /\
     Schema.obj_get (Schema.table_path (TableInfo.table_name t)) (Schema.schemaToFiles sc) =
       Some (Schema.table_content t' [] (Schema.fks_of sc (TableInfo.table_name t))) /\
     (NoDup (map TableInfo.table_name (tables sc)) -> t' = t)) /\
  (exists ov pre post,
     Schema.obj_get "schema/overview.md" (Schema.schemaToFiles sc) = Some ov /\
     ov = (pre ++ Schema.overview_line t ++ post)%string).
Proof.
  intros Hin Hcols. split.
  - destruct (fold_tables_get sc t (tables sc)
                [("schema/overview.md"%string, Schema.overview_of (tables sc))] Hin)
      as [t' [Ht' [En Eg]]].
    exists t'. split; [exact Ht'|]. split; [exact En|]. split.
    + rewrite schemaToFiles_table, Eg, Hcols. reflexivity.
    + intros Hnd. exact (NoDup_map_same _ _ _ _ Hnd Ht' Hin En).
  - destruct (fold_append_infix Schema.overview_line t (tables sc)
                ("# Database Schema Overview" ++ Schema.nl ++ Schema.nl ++ "## Tables"
                   ++ Schema.nl ++ Schema.nl)%string Hin) as [pre [post E]].
    exists (Schema.overview_of (tables sc)), pre, post.
    split; [apply schemaToFiles_overview|exact E].
Qed.

Lemma zero_column_table_documented_witness :
  let t := TableInfo.mk "public" "audit_log" "BASE TABLE" in
  let sc := mkSchema [TableInfo.mk "public" "orders" "BASE TABLE"; t]
              [ColumnInfo.mk "public" "orders" "id" "integer" "NO" None None] [] in
  Schema.obj_get (Schema.table_path "audit_log") (Schema.schemaToFiles sc) =
    Some (Schema.table_content t [] []).
Proof.
  intros t sc.
  destruct (zero_column_table_documented sc t ltac:(simpl; tauto) eq_refl)
    as [[t' (Hin & En & Eg & Hu)] _].
  rewrite (Hu ltac:(vm_compute; repeat constructor; simpl; intuition discriminate)) in Eg.
  exact Eg.
Defined.

(** ** The agent loop and the answer parser *)

Module AgentFacts.

Import Agent.

Section Loop.

Variable provider : Provider.
Variable P : Step -> Prop.
Hypothesis provider_P : forall h st, provider h = inr st -> P st.

Lemma gen_loop_inv (budget fuel : nat) (steps steps' : list Step) :
  gen_loop provider budget fuel steps = inr steps' ->
  Forall P steps -> Forall P steps' /\ length steps' <= length steps + fuel.
Proof.
  revert steps. induction fuel as [|fuel IH]; intros steps Hg Hs; simpl in Hg.
  - injection Hg as <-. split; [exact Hs|lia].
  - destruct (provider steps) as [e|st] eqn:Ep; [discriminate|].
    assert (Hs' : Forall P (steps ++ [st])).
    { apply Forall_app. split; [exact Hs|]. constructor; [apply (provider_P steps); exact Ep|constructor]. }
    destruct (match toolCalls st with [] => true | _ => false end
              || stepCountIs budget (steps ++ [st])).
    + injection Hg as <-. split; [exact Hs'|]. rewrite length_app. simpl. lia.
    + destruct (IH _ Hg Hs') as [H1 H2]. split; [exact H1|].
      rewrite length_app in H2. simpl in H2. lia.
Qed.

End Loop.

Lemma step_entry_length (tc : ToolCall) : length (step_entry tc) <= 1.
Proof.
  unfold step_entry.
  destruct (name_is (toolName tc) "bash" && truthy _); [simpl; lia|].
  destruct (name_is (toolName tc) "readFile" && truthy _); [simpl; lia|].
  destruct (truthy (toolName tc)); simpl; lia.
Qed.

Lemma flat_map_entries_length (l : list ToolCall) : length (flat_map step_entry l) <= length l.
Proof.
  induction l as [|tc l IH]; simpl; [lia|].
  rewrite length_app. pose proof (step_entry_length tc). lia.
Qed.

Lemma extractSteps_length (k : nat) (steps : list Step) :
  Forall (fun st => length (toolCalls st) <= k) steps ->
  length (extractSteps steps) <= length steps * k.
Proof.
  induction 1 as [|st steps Hst _ IH]; simpl; [lia|].
  unfold extractSteps in *. simpl. rewrite length_app.
  pose proof (flat_map_entries_length (toolCalls st)). lia.
Qed.

(** *** Parser *)

Lemma sql_match_no_marker (s : chars) : includes s fence_open = false -> sql_match s = None.
Proof.
  induction s as [|c s IH]; intros H; [reflexivity|].
  cbn [includes] in H. apply orb_false_iff in H as [H1 H2].
  cbn [sql_match]. unfold match_lit. rewrite H1. apply IH, H2.
Qed.

Lemma startsWith_fence_false (l rest : chars) :
  startsWith (l ++ fence_open_tag) fence_open = false ->
  l <> [] ->
  startsWith (l ++ fence_open ++ rest) fence_open = false.
Proof.
  intros H Hl. destruct (startsWith (l ++ fence_open ++ rest) fence_open) eqn:E; [|reflexivity].
  rewrite <- H. symmetry. apply (startsWith_shorten _ ([ascii_of_nat 10] ++ rest)).
  - unfold fence_open in E. rewrite <- !app_assoc. rewrite <- app_assoc in E. exact E.
  - destruct l; [contradiction|]. rewrite length_app. simpl. lia.
Qed.

Lemma sql_match_skip (pre rest : chars) :
  includes (pre ++ fence_open_tag) fence_open = false ->
  sql_match (pre ++ fence_open ++ rest) = sql_match (fence_open ++ rest).
Proof.
  induction pre as [|c pre IH]; intros H; [reflexivity|].
  cbn [includes app] in H. apply orb_false_iff in H as [H1 H2].
  change ((c :: pre) ++ fence_open ++ rest) with (c :: (pre ++ fence_open ++ rest)).
  cbn [sql_match]. unfold match_lit at 1.
  pose proof (startsWith_fence_false (c :: pre) rest H1 ltac:(discriminate)) as Hf.
  cbn [app] in Hf. rewrite Hf. apply IH, H2.
Qed.

Lemma match_lit_app (p r : chars) : match_lit p (p ++ r) = Some r.
Proof.
  unfold match_lit. rewrite startsWith_app, skipn_app, skipn_all, Nat.sub_diag. reflexivity.
Qed.

Lemma lazy_until_first (c post : chars) :
  includes (c ++ list_ascii_of_string "``") backticks = false ->
  lazy_until backticks (c ++ backticks ++ post) = Some c.
Proof.
  induction c as [|x c IH]; intros H; [reflexivity|].
  cbn [includes app] in H. apply orb_false_iff in H as [H1 H2].
  assert (E : startsWith (x :: c ++ backticks ++ post) backticks = false).
  { destruct (startsWith (x :: c ++ backticks ++ post) backticks) eqn:E; [|reflexivity].
    rewrite <- H1. symmetry.
    apply (startsWith_shorten _ (["`"%char] ++ post)).
    - change (x :: c ++ list_ascii_of_string "``") with ((x :: c) ++ list_ascii_of_string "``").
      rewrite <- app_assoc. simpl. exact E.
    - simpl. rewrite length_app. simpl. lia. }
  change ((x :: c) ++ backticks ++ post) with (x :: (c ++ backticks ++ post)).
  cbn [lazy_until]. rewrite E, IH by exact H2. reflexivity.
Qed.

Lemma lazy_until_none (stop s : chars) : includes s stop = false -> lazy_until stop s = None.
Proof.
  induction s as [|c s IH]; intros H; cbn [includes] in H; apply orb_false_iff in H as [H1 H2];
    cbn [lazy_until]; rewrite H1; [reflexivity|]. rewrite IH by exact H2. reflexivity.
Qed.

Lemma includes_app_pat (s p q : chars) : includes s (p ++ q) = true -> includes s p = true.
Proof.
  induction s as [|c s IH]; intros H; cbn [includes] in *; apply orb_true_iff in H as [H|H].
  - rewrite (startsWith_app_pat _ _ _ H). reflexivity.
  - discriminate.
  - rewrite (startsWith_app_pat _ _ _ H). reflexivity.
  - rewrite IH by exact H. apply orb_true_r.
Qed.

End AgentFacts.

(** ** Claims on the agent loop and the parser *)

Import AgentFacts.

(** C6 (as stated, refuted): a model that issues two tool calls in every
    step makes the loop stop after 10 steps, and the step log then holds
    20 entries. *)
Lemma C6_two_calls_per_step :
  let call := Agent.mkCall (Some "bash"%string)
                (Some (Agent.mkArgs (Some "cat schema/summary.md"%string) None)) in
  let two_calls : Agent.Provider := fun _ => inr (Agent.mkStep "" [call; call]) in
  exists r, Agent.query two_calls = inr r /\ length (Agent.steps r) = 20 /\
            10 < length (Agent.steps r).
Proof.
  intros call two_calls.
  exists (match Agent.query two_calls with
          | inr r => r
          | inl _ => Agent.mkResponse "" "" []
          end).
  vm_compute. split; [reflexivity|]. split; [reflexivity|lia].
Qed.

(** C6 (amended): the loop runs at most 10 model steps; the step log has
    one entry per named tool call of those steps, so when the model issues
    at most [k] tool calls per step the log has at most [10 * k] entries
    (at most 10 for one call per step). *)
Theorem query_steps_bounded (provider : Agent.Provider) (k : nat) (r : Agent.AgentResponse) :
  (forall h st, provider h = inr st -> length (Agent.toolCalls st) <= k) ->
  Agent.query provider = inr r ->
  exists g, Agent.generateText provider 10 = inr g /\
            length (Agent.result_steps g) <= 10 /\
            Agent.steps r = Agent.extractSteps (Agent.result_steps g) /\
            length (Agent.steps r) <= 10 * k.
Proof.
  intros Hk Hq. unfold Agent.query in Hq.
  destruct (Agent.generateText provider 10) as [e|g] eqn:Eg; [discriminate|].
  injection Hq as <-. exists g. split; [reflexivity|].
  unfold Agent.generateText in Eg.
  destruct (Agent.gen_loop provider 10 10 []) as [e|steps] eqn:El; [discriminate|].
  injection Eg as <-. simpl.
  destruct (gen_loop_inv provider (fun st => length (Agent.toolCalls st) <= k) Hk
              10 10 [] steps El (Forall_nil _)) as [Hall Hlen].
  simpl in Hlen. split; [exact Hlen|]. split; [reflexivity|].
  pose proof (extractSteps_length k steps Hall). nia.
Qed.

Lemma query_steps_bounded_witness :
  let call := Agent.mkCall (Some "bash"%string)
                (Some (Agent.mkArgs (Some "ls schema/"%string) None)) in
  let one_call : Agent.Provider := fun _ => inr (Agent.mkStep "" [call]) in
  exists r, Agent.query one_call = inr r /\ length (Agent.steps r) <= 10.
Proof.
  intros call one_call.
  set (r := match Agent.query one_call with
            | inr r => r
            | inl _ => Agent.mkResponse "" "" []
            end).
  assert (Hq : Agent.query one_call = inr r) by (vm_compute; reflexivity).
  exists r. split; [exact Hq|].
  assert (H1 : forall h st, one_call h = inr st -> length (Agent.toolCalls st) <= 1).
  { intros h st E. injection E as <-. simpl. lia. }
  destruct (query_steps_bounded one_call 1 r H1 Hq) as (g & _ & _ & _ & H). exact H.
Defined.

(** C8 (as stated, refuted): an answer that is exactly a fenced block tagged
    [sql] but written with CRLF line ends, ["```sql\r\nSELECT 1\r\n```"],
    yields an empty SQL although the block's trimmed contents are
    [SELECT 1]; so does a block tagged [SQL]. *)
Lemma C8_fence_variants_missed :
  let CR := ascii_of_nat 13 in
  let LF := ascii_of_nat 10 in
  let contents := list_ascii_of_string "SELECT 1" ++ [CR; LF] in
  trim contents = list_ascii_of_string "SELECT 1" /\
  Agent.extract_sql (Agent.fence_open_tag ++ [CR; LF] ++ contents ++ Agent.backticks) = [] /\
  Agent.extract_sql (list_ascii_of_string "```SQL" ++ [LF] ++ list_ascii_of_string "SELECT 1"
                     ++ [LF] ++ Agent.backticks) = [].
Proof. vm_compute. split; [reflexivity|split; reflexivity]. Qed.

(** C8 (amended): the SQL is the trimmed text between the first occurrence
    of the exact marker [```sql] followed by a line feed and the first
    [```] after it; when the marker does not occur, or no [```] follows it,
    the SQL is empty. *)
Theorem extract_sql_spec :
  (forall pre c post,
     includes (pre ++ Agent.fence_open_tag) Agent.fence_open = false ->
     includes (c ++ list_ascii_of_string "``") Agent.backticks = false ->
     Agent.extract_sql (pre ++ Agent.fence_open ++ c ++ Agent.backticks ++ post) = trim c) /\
  (forall raw, includes raw Agent.fence_open = false -> Agent.extract_sql raw = []) /\
  (forall pre post,
     includes (pre ++ Agent.fence_open_tag) Agent.fence_open = false ->
     includes post Agent.backticks = false ->
     Agent.extract_sql (pre ++ Agent.fence_open ++ post) = []).
Proof.
  split; [|split].
  - intros pre c post Hpre Hc. unfold Agent.extract_sql.
    rewrite sql_match_skip by exact Hpre.
    change (Agent.fence_open ++ c ++ Agent.backticks ++ post)
      with ("`"%char :: (list_ascii_of_string "``sql" ++ [ascii_of_nat 10]) ++ c ++ Agent.backticks ++ post).
    cbn [Agent.sql_match].
    change ("`"%char :: (list_ascii_of_string "``sql" ++ [ascii_of_nat 10]) ++ c ++ Agent.backticks ++ post)
      with (Agent.fence_open ++ c ++ Agent.backticks ++ post).
    rewrite match_lit_app, lazy_until_first by exact Hc. reflexivity.
  - intros raw H. unfold Agent.extract_sql. rewrite sql_match_no_marker by exact H. reflexivity.
  - intros pre post Hpre Hpost. unfold Agent.extract_sql.
    rewrite sql_match_skip by exact Hpre.
    change (Agent.fence_open ++ post)
      with ("`"%char :: (list_ascii_of_string "``sql" ++ [ascii_of_nat 10]) ++ post).
    cbn [Agent.sql_match].
    change ("`"%char :: (list_ascii_of_string "``sql" ++ [ascii_of_nat 10]) ++ post)
      with (Agent.fence_open ++ post).
    rewrite match_lit_app, (lazy_until_none _ _ Hpost).
    rewrite sql_match_no_marker; [reflexivity|]. rewrite <- app_assoc.
    destruct (includes (list_ascii_of_string "``sql" ++ [ascii_of_nat 10] ++ post)
                Agent.fence_open) eqn:E; [|reflexivity].
    exfalso. change Agent.fence_open with (Agent.backticks ++ list_ascii_of_string "sql" ++ [ascii_of_nat 10]) in E.
    apply includes_app_pat in E. simpl in E. rewrite Hpost in E. discriminate E.
Qed.

Lemma extract_sql_spec_witness :
  Agent.extract_sql (list_ascii_of_string "Here it is:" ++ Agent.fence_open ++
                     list_ascii_of_string "  SELECT id FROM orders LIMIT 5 " ++
                     Agent.backticks ++ list_ascii_of_string " done") =
  list_ascii_of_string "SELECT id FROM orders LIMIT 5".
Proof.
  rewrite (proj1 extract_sql_spec); [vm_compute; reflexivity | vm_compute; reflexivity |
                                    vm_compute; reflexivity].
Defined.

(** ** Claims on the query endpoint *)

Module RouteFacts.

Import Route.

Local Open Scope string_scope.

(** What the endpoint answers once a validated query reached the database. *)
Lemma POST_after_rpc (env : Env) (req : Request) (resp : Response) (tr : list Event)
    (c : string) :
  POST env req = (resp, tr) -> In (EvRpc c) tr ->
  exists cr expl sql steps,
    credentials req = Some cr /\
    let fields := [("success", JBool true); ("explanation", JStr expl); ("sql", JStr sql);
                   ("steps", JStrs steps)] in
    match rpc env cr c with
    | RpcThrows =>
        resp = mkResp 200 (fields ++ [("data", JNull); ("note", JStr (note_of "RPC not available"))])
    | RpcReturns _ (Some m) =>
        resp = mkResp 200 (fields ++ [("data", JNull); ("note", JStr (note_of m))])
    | RpcReturns d None =>
        resp = mkResp 200 (fields ++ [("data", match d with Some r => JRows r | None => JNull end)])
    end.
Proof.
  intros Hpost Hin. destruct req as [[q|] [cr|] [sc|]];
    unfold POST in Hpost; cbn [question credentials schema] in Hpost;
    try (injection Hpost as <- <-; destruct Hin; fail).
  destruct (String.eqb q "");
    [injection Hpost as <- <-; destruct Hin|].
  destruct (createLLMClient cr);
    [injection Hpost as <- <-; destruct Hin|].
  cbv zeta in Hpost.
  destruct (Agent.query _) as [e|res];
    [injection Hpost as <- <-; destruct Hin as [H|[]]; discriminate H|].
  destruct (String.eqb (Agent.sql res) "" || String.eqb (trim_s (Agent.sql res)) "");
    [injection Hpost as <- <-; destruct Hin as [H|[]]; discriminate H|].
  destruct (negb (valid (validateSqlQuery (Agent.sql res))));
    [injection Hpost as <- <-; destruct Hin as [H|[H|[]]]; discriminate H|].
  destruct (client_error env (supabaseUrl cr) (supabaseAnonKey cr));
    [injection Hpost as <- <-; destruct Hin as [H|[H|[]]]; discriminate H|].
  exists cr, (Agent.explanation res), (Agent.sql res), (Agent.steps res).
  split; [reflexivity|]. cbv zeta.
  destruct (rpc env cr (cleanSql (Agent.sql res))) as [|d [m|]] eqn:Erpc;
    injection Hpost as <- <-;
    destruct Hin as [H|[H|[H|[]]]]; try discriminate H; injection H as <-;
    rewrite Erpc; reflexivity.
Qed.

End RouteFacts.

Import RouteFacts.

(** C2 (as stated, refuted): a database error whose message is
    ["RPC not available"] and an execution call that throws produce the
    same response; both are soft successes with [data: null] and a note, so
    no distinct ExecutionError outcome exists. *)
Lemma C2_error_and_unavailable_conflated :
  let answer : Agent.Provider := fun _ =>
    inr (Agent.mkStep ("**Explanation:** All orders." ++ Schema.nl ++ "**SQL Query:**" ++ Schema.nl
                       ++ "```sql" ++ Schema.nl ++ "SELECT id FROM orders LIMIT 5" ++ Schema.nl
                       ++ "```")%string []) in
  let env_error := Route.mkEnv (fun _ _ _ _ => answer) (fun _ _ => None)
                     (fun _ _ => Route.RpcReturns None (Some "RPC not available"%string)) in
  let env_unavailable := Route.mkEnv (fun _ _ _ _ => answer) (fun _ _ => None)
                     (fun _ _ => Route.RpcThrows) in
  let req := Route.mkReq (Some "show me the first 5 orders"%string)
               (Some (Route.mkCred "https://db.example" "anon" "openai" None "sk"))
               (Some (mkSchema [TableInfo.mk "public" "orders" "BASE TABLE"] [] [])) in
  fst (Route.POST env_error req) = fst (Route.POST env_unavailable req) /\
  In ("success"%string, Route.JBool true) (Route.body (fst (Route.POST env_error req))) /\
  In ("data"%string, Route.JNull) (Route.body (fst (Route.POST env_error req))).
Proof.
  vm_compute. split; [reflexivity|]. split; [left; reflexivity|].
  do 4 right. left. reflexivity.
Qed.

(** C2 (amended): once the validated query is submitted, a database error
    with message [m] and a throwing execution call lead to the same
    response: HTTP 200 with [success: true], the agent's explanation, the
    generated SQL and the agent's steps, [data: null] and the note built
    from [m], where [m] is ["RPC not available"] for the throw.  The SQL
    submitted is the cleaned form of the generated SQL, which passed the
    validator. *)
Theorem rpc_failure_soft_success (env : Route.Env) (req : Route.Request)
    (resp : Route.Response) (tr : list Route.Event) (c : string) :
  Route.POST env req = (resp, tr) -> In (Route.EvRpc c) tr ->
  exists q cr sc res,
    Route.question req = Some q /\ Route.credentials req = Some cr /\
    Route.schema req = Some sc /\
    Agent.query (Route.model env (Route.llmProvider cr)
                   (Route.getModelId (Route.llmProvider cr) (Route.llmModel cr))
                   (Schema.schemaToFiles sc) q) = inr res /\
    valid (validateSqlQuery (Agent.sql res)) = true /\
    c = Route.cleanSql (Agent.sql res) /\
    (Route.rpc env cr c = Route.RpcThrows ->
       resp = Route.mkResp 200
                [("success"%string, Route.JBool true);
                 ("explanation"%string, Route.JStr (Agent.explanation res));
                 ("sql"%string, Route.JStr (Agent.sql res));
                 ("steps"%string, Route.JStrs (Agent.steps res));
                 ("data"%string, Route.JNull);
                 ("note"%string, Route.JStr (Route.note_of "RPC not available"))]) /\
    (forall d m, Route.rpc env cr c = Route.RpcReturns d (Some m) ->
       resp = Route.mkResp 200
                [("success"%string, Route.JBool true);
                 ("explanation"%string, Route.JStr (Agent.explanation res));
                 ("sql"%string, Route.JStr (Agent.sql res));
                 ("steps"%string, Route.JStrs (Agent.steps res));
                 ("data"%string, Route.JNull);
                 ("note"%string, Route.JStr (Route.note_of m))]).
Proof.
  intros Hpost Hin. destruct req as [[q|] [cr|] [sc|]];
    unfold Route.POST in Hpost; cbn [Route.question Route.credentials Route.schema] in Hpost;
    try (injection Hpost as <- <-; destruct Hin; fail).
  destruct (String.eqb q "");
    [injection Hpost as <- <-; destruct Hin|].
  destruct (Route.createLLMClient cr);
    [injection Hpost as <- <-; destruct Hin|].
  destruct (Agent.query _) as [e|res] eqn:Eq;
    [injection Hpost as <- <-; destruct Hin as [H|[]]; discriminate H|].
  destruct (String.eqb (Agent.sql res) "" || String.eqb (Route.trim_s (Agent.sql res)) "");
    [injection Hpost as <- <-; destruct Hin as [H|[]]; discriminate H|].
  destruct (valid (validateSqlQuery (Agent.sql res))) eqn:Ev; cbn [negb] in Hpost;
    [|injection Hpost as <- <-; destruct Hin as [H|[H|[]]]; discriminate H].
  destruct (Route.client_error env (Route.supabaseUrl cr) (Route.supabaseAnonKey cr));
    [injection Hpost as <- <-; destruct Hin as [H|[H|[]]]; discriminate H|].
  cbv zeta in Hpost.
  assert (Hc : c = Route.cleanSql (Agent.sql res)).
  { destruct (Route.rpc env cr (Route.cleanSql (Agent.sql res))) as [|d [m|]];
      injection Hpost as _ <-;
      destruct Hin as [H|[H|[H|[]]]]; try discriminate H; injection H as <-; reflexivity. }
  subst c.
  exists q, cr, sc, res.
  do 6 (split; [first [reflexivity | exact Eq | exact Ev]|]).
  split.
  - intros E. rewrite E in Hpost. injection Hpost as <- _. reflexivity.
  - intros d m E. rewrite E in Hpost. injection Hpost as <- _. reflexivity.
Qed.

Lemma rpc_failure_soft_success_witness :
  let answer : Agent.Provider := fun _ =>
    inr (Agent.mkStep ("```sql" ++ Schema.nl ++ "SELECT id FROM orders" ++ Schema.nl ++ "```")%string []) in
  let env := Route.mkEnv (fun _ _ _ _ => answer) (fun _ _ => None)
               (fun _ _ => Route.RpcReturns None (Some "permission denied"%string)) in
  let req := Route.mkReq (Some "list orders"%string)
               (Some (Route.mkCred "https://db.example" "anon" "openai" None "sk"))
               (Some (mkSchema [TableInfo.mk "public" "orders" "BASE TABLE"] [] [])) in
  exists q cr sc res,
    Route.question req = Some q /\ Route.credentials req = Some cr /\
    Route.schema req = Some sc /\
    Agent.query (Route.model env (Route.llmProvider cr)
                   (Route.getModelId (Route.llmProvider cr) (Route.llmModel cr))
                   (Schema.schemaToFiles sc) q) = inr res /\
    valid (validateSqlQuery (Agent.sql res)) = true /\
    "SELECT id FROM orders"%string = Route.cleanSql (Agent.sql res) /\
    (Route.rpc env cr "SELECT id FROM orders" = Route.RpcThrows ->
       fst (Route.POST env req) = Route.mkResp 200
                [("success"%string, Route.JBool true);
                 ("explanation"%string, Route.JStr (Agent.explanation res));
                 ("sql"%string, Route.JStr (Agent.sql res));
                 ("steps"%string, Route.JStrs (Agent.steps res));
                 ("data"%string, Route.JNull);
                 ("note"%string, Route.JStr (Route.note_of "RPC not available"))]) /\
    (forall d m, Route.rpc env cr "SELECT id FROM orders" = Route.RpcReturns d (Some m) ->
       fst (Route.POST env req) = Route.mkResp 200
                [("success"%string, Route.JBool true);
                 ("explanation"%string, Route.JStr (Agent.explanation res));
                 ("sql"%string, Route.JStr (Agent.sql res));
                 ("steps"%string, Route.JStrs (Agent.steps res));
                 ("data"%string, Route.JNull);
                 ("note"%string, Route.JStr (Route.note_of m))]).
Proof.
  intros answer env req.
  apply (rpc_failure_soft_success env req (fst (Route.POST env req)) (snd (Route.POST env req))
           "SELECT id FROM orders").
  - destruct (Route.POST env req). reflexivity.
  - vm_compute. right. right. left. reflexivity.
Defined.

(** C5: when the agent's extracted SQL is empty, the endpoint answers
    [success: false] with the extraction-failure message, the explanation
    and the step log, and the validator is never called. *)
Theorem empty_sql_extraction_failure (env : Route.Env) (q : string) (cr : Route.Credentials)
    (sc : SchemaInfo) (r : Agent.AgentResponse) :
  q <> ""%string ->
  Route.createLLMClient cr = inr tt ->
  Agent.query (Route.model env (Route.llmProvider cr)
                 (Route.getModelId (Route.llmProvider cr) (Route.llmModel cr))
                 (Schema.schemaToFiles sc) q) = inr r ->
  Agent.sql r = ""%string ->
  fst (Route.POST env (Route.mkReq (Some q) (Some cr) (Some sc))) =
    Route.mkResp 200 [("success"%string, Route.JBool false);
                      ("error"%string, Route.JStr Route.msg_extract);
                      ("explanation"%string, Route.JStr (Agent.explanation r));
                      ("steps"%string, Route.JStrs (Agent.steps r))] /\
  forall s, ~ In (Route.EvValidate s) (snd (Route.POST env (Route.mkReq (Some q) (Some cr) (Some sc)))).
Proof.
  intros Hq Hc Hr Hs. apply String.eqb_neq in Hq.
  unfold Route.POST. cbn [Route.question Route.credentials Route.schema].
  rewrite Hq, Hc. cbv zeta. rewrite Hr, Hs. simpl.
  split; [reflexivity|]. intros s [H|[]]. discriminate H.
Qed.

Lemma empty_sql_extraction_failure_witness :
  let answer : Agent.Provider := fun _ =>
    inr (Agent.mkStep "I could not find a matching table." []) in
  let env := Route.mkEnv (fun _ _ _ _ => answer) (fun _ _ => None) (fun _ _ => Route.RpcThrows) in
  let cr := Route.mkCred "https://db.example" "anon" "anthropic" None "sk" in
  let sc := mkSchema [TableInfo.mk "public" "orders" "BASE TABLE"] [] [] in
  fst (Route.POST env (Route.mkReq (Some "how many users?"%string) (Some cr) (Some sc))) =
    Route.mkResp 200 [("success"%string, Route.JBool false);
                      ("error"%string, Route.JStr Route.msg_extract);
                      ("explanation"%string, Route.JStr "I could not find a matching table.");
                      ("steps"%string, Route.JStrs [])].
Proof.
  intros answer env cr sc.
  refine (proj1 (empty_sql_extraction_failure env "how many users?" cr sc
                   (Agent.mkResponse "I could not find a matching table." "" []) _ _ _ _)).
  - discriminate.
  - reflexivity.
  - vm_compute. reflexivity.
  - reflexivity.
Defined.

(** * Further properties of the pipeline *)

(** ** The validator: normalisation and keyword detection *)

Module ValidatorMore.

Import JSFacts ValidatorFacts SchemaFacts.

Lemma is_ws_upper (c : ascii) : is_ws (upper c) = is_ws c.
Proof. all_chars c; reflexivity. Qed.

Lemma upper_idem (c : ascii) : upper (upper c) = upper c.
Proof. all_chars c; reflexivity. Qed.

Lemma is_word_upper (c : ascii) : is_word (upper c) = is_word c.
Proof. all_chars c; reflexivity. Qed.

Lemma word_not_ws (c : ascii) : is_word (upper c) = true -> is_ws c = false.
Proof. all_chars c; vm_compute; intros H; first [reflexivity | discriminate H]. Qed.

Lemma eq_ci_upper (c : ascii) : eq_ci (upper c) c = true.
Proof. all_chars c; reflexivity. Qed.

Lemma trim_start_upper (s : chars) : trim_start (map upper s) = map upper (trim_start s).
Proof.
  induction s as [|c s IH]; [reflexivity|]. simpl. rewrite is_ws_upper.
  destruct (is_ws c); [exact IH|reflexivity].
Qed.

Lemma trim_upper (s : chars) : trim (map upper s) = map upper (trim s).
Proof.
  unfold trim, trim_end. rewrite trim_start_upper, <- map_rev, trim_start_upper, map_rev.
  reflexivity.
Qed.

(** the validator only looks at the normalised text *)
Lemma validate_normalize (s1 s2 : string) :
  normalize s1 = normalize s2 -> validateSqlQuery s1 = validateSqlQuery s2.
Proof. intros E. unfold validateSqlQuery. cbv zeta. rewrite E. reflexivity. Qed.

Lemma trim_start_app (s r : chars) :
  trim_start (s ++ r) = match trim_start s with [] => trim_start r | x => x ++ r end.
Proof.
  induction s as [|c s IH]; [reflexivity|]. simpl.
  destruct (is_ws c); [exact IH|reflexivity].
Qed.

Lemma trim_start_ws (l s : chars) : all_ws l -> trim_start (l ++ s) = trim_start s.
Proof. induction 1 as [|c l Hc _ IH]; [reflexivity|]. simpl. rewrite Hc. exact IH. Qed.

Lemma trim_start_all_ws (l : chars) : all_ws l -> trim_start l = [].
Proof. intros H. rewrite <- (app_nil_r l), trim_start_ws by exact H. reflexivity. Qed.

Lemma trim_surround (l s r : chars) : all_ws l -> all_ws r -> trim (l ++ s ++ r) = trim s.
Proof.
  intros Hl Hr. unfold trim, trim_end. rewrite trim_start_ws by exact Hl.
  rewrite trim_start_app.
  destruct (trim_start s) as [|c x] eqn:E.
  - rewrite (trim_start_all_ws r Hr). reflexivity.
  - rewrite rev_app_distr, trim_start_ws by (apply Forall_rev; exact Hr). reflexivity.
Qed.

(** [trim] of a text with a non-blank infix keeps a suffix of the text
    before it and a prefix of the text after it *)
Lemma trim_start_infix_suffix (a w b : chars) :
  match w with c :: _ => is_ws c = false | [] => False end ->
  exists a0 a', a = a0 ++ a' /\ trim_start (a ++ w ++ b) = a' ++ w ++ b.
Proof.
  intros Hw. induction a as [|c a IH].
  - exists [], []. split; [reflexivity|].
    destruct w as [|c w]; [contradiction|]. simpl. rewrite Hw. reflexivity.
  - simpl. destruct (is_ws c).
    + destruct IH as [a0 [a' [-> E]]]. exists (c :: a0), a'. split; [reflexivity|exact E].
    + exists [], (c :: a). split; reflexivity.
Qed.

Lemma trim_infix_parts (a w b : chars) :
  match w with c :: _ => is_ws c = false | [] => False end ->
  match rev w with c :: _ => is_ws c = false | [] => False end ->
  exists a0 a' b' b0, a = a0 ++ a' /\ b = b' ++ b0 /\ trim (a ++ w ++ b) = a' ++ w ++ b'.
Proof.
  intros Hh Ht. unfold trim, trim_end.
  destruct (trim_start_infix_suffix a w b Hh) as [a0 [a' [Ea ->]]].
  rewrite rev_app_distr, rev_app_distr, <- app_assoc.
  destruct (trim_start_infix_suffix (rev b) (rev w) (rev a') Ht) as [b0 [b' [Eb ->]]].
  exists a0, a', (rev b'), (rev b0). split; [exact Ea|]. split.
  - rewrite <- rev_app_distr, <- Eb, rev_involutive. reflexivity.
  - rewrite rev_app_distr, rev_app_distr, !rev_involutive, app_assoc. reflexivity.
Qed.

(** the word-character flag after scanning a text *)
Fixpoint after_flag (pw : bool) (x : chars) : bool :=
  match x with
  | [] => pw
  | c :: r => after_flag (is_word c) r
  end.

Lemma word_search_app (kw : chars) (pw : bool) (x y : chars) :
  word_search kw (after_flag pw x) y = true -> word_search kw pw (x ++ y) = true.
Proof.
  revert pw. induction x as [|c x IH]; intros pw H; [exact H|].
  simpl. rewrite (IH _ H). apply orb_true_r.
Qed.

Lemma after_flag_last (pw : bool) (x : chars) (c : ascii) :
  after_flag pw (x ++ [c]) = is_word c.
Proof. revert pw. induction x as [|d x IH]; intros pw; [reflexivity|]. apply IH. Qed.

Lemma match_ci_upper (k b : chars) : match_ci (map upper k) (map upper k ++ b) = Some b.
Proof.
  induction k as [|c k IH]; [reflexivity|]. simpl.
  unfold eq_ci. rewrite upper_idem, Ascii.eqb_refl. exact IH.
Qed.

Lemma first_forbidden_found (kws : list string) (kw : string) (t : chars) :
  In kw kws -> word_regex_test (list_ascii_of_string kw) t = true ->
  exists k, first_forbidden kws t = Some k.
Proof.
  induction kws as [|k kws IH]; intros Hin Ht; [destruct Hin|]. simpl.
  destruct (word_regex_test (list_ascii_of_string k) t) eqn:E; [exists k; reflexivity|].
  destruct Hin as [->|Hin]; [rewrite Ht in E; discriminate|]. exact (IH Hin Ht).
Qed.

Lemma keyword_ends (kw : string) :
  In kw dangerousKeywords ->
  match list_ascii_of_string kw with c :: _ => is_word c = true | [] => False end /\
  match rev (list_ascii_of_string kw) with c :: _ => is_word c = true | [] => False end.
Proof.
  simpl. intros H. repeat (destruct H as [<-|H]; [split; reflexivity|]). contradiction.
Qed.

Lemma exists_last_or_nil {A} (l : list A) : l = [] \/ exists x c, l = x ++ [c].
Proof.
  destruct l as [|a l]; [left; reflexivity|right].
  destruct (exists_last (l := a :: l) ltac:(discriminate)) as [x [c E]].
  exists x, c. exact E.
Qed.

Lemma word_search_hit (kw s rest : chars) :
  s <> [] -> match_ci kw s = Some rest -> boundary_after rest = true ->
  word_search kw false s = true.
Proof.
  destruct s as [|c s]; intros Hs Hm Hb; [contradiction|]. simpl.
  rewrite Hm, Hb. reflexivity.
Qed.

Lemma normalize_upper (sql : string) :
  normalize sql = trim (toUpperCase (list_ascii_of_string sql)).
Proof. unfold normalize, toUpperCase. rewrite trim_upper. reflexivity. Qed.

End ValidatorMore.

Import ValidatorMore.

(** X1 (validateSqlQuery): the letter case of the input never changes the
    verdict nor the message: two inputs that agree once upper-cased get the
    same outcome. *)
Theorem validate_case_insensitive (s1 s2 : string) :
  toUpperCase (list_ascii_of_string s1) = toUpperCase (list_ascii_of_string s2) ->
  validateSqlQuery s1 = validateSqlQuery s2.
Proof.
  intros E. apply validate_normalize. rewrite !normalize_upper, E. reflexivity.
Qed.

Lemma validate_case_insensitive_witness :
  validateSqlQuery "select * from users"%string = validateSqlQuery "SELECT * FROM Users"%string.
Proof. apply validate_case_insensitive. vm_compute. reflexivity. Defined.

(** X2 (validateSqlQuery): whitespace around the query never changes the
    outcome: padding the input with blanks, tabs or newlines on either side
    gives the same verdict and message. *)
Theorem validate_surrounding_whitespace (l sql r : string) :
  all_ws (list_ascii_of_string l) -> all_ws (list_ascii_of_string r) ->
  validateSqlQuery (l ++ sql ++ r) = validateSqlQuery sql.
Proof.
  intros Hl Hr. apply validate_normalize. unfold normalize.
  rewrite !list_ascii_of_string_app, trim_surround by assumption. reflexivity.
Qed.

Lemma validate_surrounding_whitespace_witness :
  all_ws (list_ascii_of_string "  "%string) /\
  all_ws (list_ascii_of_string (String (ascii_of_nat 10) EmptyString)) /\
  validateSqlQuery ("  " ++ "SELECT 1" ++ String (ascii_of_nat 10) EmptyString)%string
  = validateSqlQuery "SELECT 1"%string.
Proof.
  assert (H1 : all_ws (list_ascii_of_string "  "%string)) by (repeat constructor).
  assert (H2 : all_ws (list_ascii_of_string (String (ascii_of_nat 10) EmptyString)))
    by (repeat constructor).
  split; [exact H1|]. split; [exact H2|].
  exact (validate_surrounding_whitespace _ _ _ H1 H2).
Defined.

(** X3 (validateSqlQuery): in an ASCII input, a forbidden keyword standing
    as a whole word anywhere, in any letter case (for instance inside a
    subquery, after a string or at the very end), makes the validator
    reject the query. *)
Theorem validate_rejects_keyword_anywhere (sql : string) (a k b : chars) (kw : string) :
  ascii_only (list_ascii_of_string sql) = true ->
  In kw dangerousKeywords ->
  list_ascii_of_string sql = a ++ k ++ b ->
  toUpperCase k = list_ascii_of_string kw ->
  (a = [] \/ exists a1 c, a = a1 ++ [c] /\ is_word c = false) ->
  (b = [] \/ exists c b1, b = c :: b1 /\ is_word c = false) ->
  valid (validateSqlQuery sql) = false.
Proof.
  intros _ Hin Hsql Hk Ha Hb.
  unfold validateSqlQuery. cbv zeta.
  destruct (starts_ok (normalize sql)); [|reflexivity]. cbn [negb].
  destruct (keyword_ends kw Hin) as [Hh Ht].
  rewrite <- Hk in Hh, Ht. unfold toUpperCase in Hh, Ht.
  assert (Hh' : match k with c :: _ => is_ws c = false | [] => False end).
  { destruct k as [|c k]; [exact Hh|]. apply word_not_ws. exact Hh. }
  assert (Ht' : match rev k with c :: _ => is_ws c = false | [] => False end).
  { rewrite <- map_rev in Ht. destruct (rev k) as [|c k']; [exact Ht|].
    apply word_not_ws. exact Ht. }
  destruct (trim_infix_parts a k b Hh' Ht') as [a0 [a' [b' [b0 [Ea [Eb Et]]]]]].
  assert (Hfound : word_regex_test (list_ascii_of_string kw) (normalize sql) = true).
  { unfold normalize, toUpperCase. rewrite Hsql, Et, !map_app.
    unfold word_regex_test. apply word_search_app.
    assert (Hflag : after_flag false (map upper a') = false).
    { destruct (exists_last_or_nil a') as [->|[x [c ->]]]; [reflexivity|].
      rewrite map_app. cbn [map]. rewrite after_flag_last, is_word_upper.
      destruct Ha as [->|[a1 [c1 [Ea1 Hc1]]]].
      - symmetry in Ea. apply app_eq_nil in Ea. destruct Ea as [_ Ea].
        apply app_eq_nil in Ea. destruct Ea as [_ Ea]. discriminate Ea.
      - rewrite Ea1, app_assoc in Ea. apply app_inj_tail in Ea.
        destruct Ea as [_ <-]. exact Hc1. }
    rewrite Hflag. rewrite <- Hk. unfold toUpperCase.
    apply (word_search_hit _ _ (map upper b')).
    - destruct k; [contradiction|]. discriminate.
    - apply match_ci_upper.
    - destruct b' as [|c b'']; [reflexivity|]. cbn [map boundary_after].
      rewrite is_word_upper.
      destruct Hb as [->|[c1 [b1 [Eb1 Hc1]]]]; [discriminate|].
      rewrite Eb1 in Eb. injection Eb as <- _. rewrite Hc1. reflexivity. }
  destruct (first_forbidden_found _ _ _ Hin Hfound) as [k' ->]. reflexivity.
Qed.

Lemma validate_rejects_keyword_anywhere_witness :
  valid (validateSqlQuery "SELECT a FROM t WHERE b = 'x' OR drop"%string) = false.
Proof.
  apply (validate_rejects_keyword_anywhere _
           (list_ascii_of_string "SELECT a FROM t WHERE b = 'x' OR "%string)
           (list_ascii_of_string "drop"%string) [] "DROP"%string).
  - vm_compute. reflexivity.
  - simpl. tauto.
  - vm_compute. reflexivity.
  - vm_compute. reflexivity.
  - right. exists (list_ascii_of_string "SELECT a FROM t WHERE b = 'x' OR"%string), " "%char.
    split; vm_compute; reflexivity.
  - left. reflexivity.
Defined.

(** ** The agent: parsing answers in the prompt's output format *)

Module AgentMore.

Import JS Agent JSFacts AgentFacts ValidatorMore.

Definition newline : ascii := ascii_of_nat 10.

(** An answer that follows the OUTPUT FORMAT of the system prompt, with any
    text [pre] before it and [post] after it:
    [**Explanation:** E\n\n**SQL Query:**\n```sql\nQ\n```] *)
Definition answer_format (pre E Q post : chars) : chars :=
  pre ++ expl_marker ++ [" "%char] ++ E ++ [newline; newline] ++
  list_ascii_of_string "**SQL Query:**" ++ [newline] ++
  fence_open ++ Q ++ [newline] ++ backticks ++ post.

Lemma startsWith_head_neq (d c : ascii) (s p : chars) :
  d <> c -> startsWith (d :: s) (c :: p) = false.
Proof.
  intros H. cbn [startsWith]. destruct (Ascii.eqb_spec c d) as [->|_]; [contradiction|].
  reflexivity.
Qed.

Lemma includes_skip (x y p : chars) (c : ascii) :
  hd_error p = Some c -> ~ In c x -> includes (x ++ y) p = includes y p.
Proof.
  destruct p as [|c' p]; intros Hc; [discriminate|]. injection Hc as ->.
  induction x as [|d x IH]; intros Hx; [reflexivity|].
  cbn [app includes]. rewrite startsWith_head_neq by (intros ->; apply Hx; left; reflexivity).
  apply IH. intros H. apply Hx. right. exact H.
Qed.

Lemma until_marker_app (x y : chars) :
  ~ In "*"%char x -> until_marker_or_end (x ++ sql_marker ++ y) = x.
Proof.
  induction x as [|d x IH]; intros Hx.
  - cbn [app]. pose proof (startsWith_app sql_marker y) as H. revert H.
    destruct (sql_marker ++ y) as [|c r]; intros H; [discriminate|].
    cbn [until_marker_or_end]. rewrite H. reflexivity.
  - assert (E : startsWith (d :: x ++ sql_marker ++ y) sql_marker = false).
    { replace sql_marker with ("*"%char :: tl sql_marker) at 2 by reflexivity.
      apply startsWith_head_neq. intros ->. apply Hx. left. reflexivity. }
    cbn [app until_marker_or_end]. rewrite E.
    rewrite IH; [reflexivity|]. intros H. apply Hx. right. exact H.
Qed.

Lemma startsWith_marker_not_ws (c : ascii) (r : chars) :
  startsWith (c :: r) sql_marker = true -> is_ws c = false.
Proof.
  replace sql_marker with ("*"%char :: tl sql_marker) by reflexivity.
  cbn [startsWith]. intros H. apply andb_true_iff in H as [H _].
  apply Ascii.eqb_eq in H. subst c. reflexivity.
Qed.

Lemma until_skip_ws (s : chars) :
  until_marker_or_end (skip_ws s) = skip_ws (until_marker_or_end s).
Proof.
  induction s as [|c r IH]; [reflexivity|].
  destruct (startsWith (c :: r) sql_marker) eqn:Em.
  - pose proof (startsWith_marker_not_ws _ _ Em) as Ew.
    repeat (first [rewrite Em | rewrite Ew | progress cbn [skip_ws until_marker_or_end]]).
    reflexivity.
  - destruct (is_ws c) eqn:Ew;
      repeat (first [rewrite Em | rewrite Ew | progress cbn [skip_ws until_marker_or_end]]);
      [exact IH|reflexivity].
Qed.

Lemma skip_ws_trim_start (s : chars) : skip_ws s = trim_start s.
Proof. induction s as [|c r IH]; [reflexivity|]. simpl. destruct (is_ws c); [exact IH|reflexivity]. Qed.

Lemma trim_start_idem (s : chars) : trim_start (trim_start s) = trim_start s.
Proof.
  induction s as [|c r IH]; [reflexivity|]. simpl.
  destruct (is_ws c) eqn:E; [exact IH|]. simpl. rewrite E. reflexivity.
Qed.

Lemma trim_trim_start (s : chars) : trim (trim_start s) = trim s.
Proof. unfold trim. rewrite trim_start_idem. reflexivity. Qed.

Lemma explanation_match_at (pre rest : chars) :
  ~ In "*"%char pre ->
  explanation_match (pre ++ expl_marker ++ rest) = Some (until_marker_or_end (skip_ws rest)).
Proof.
  induction pre as [|d pre IH]; intros Hp.
  - cbn [app]. pose proof (match_lit_app expl_marker rest) as H. revert H.
    change (expl_marker ++ rest) with ("*"%char :: (tl expl_marker ++ rest)).
    intros H. cbn [explanation_match]. rewrite H. reflexivity.
  - assert (E : startsWith (d :: pre ++ expl_marker ++ rest) expl_marker = false).
    { change expl_marker with ("*"%char :: tl expl_marker) at 2.
      apply startsWith_head_neq. intros ->. apply Hp. left. reflexivity. }
    cbn [app explanation_match]. unfold match_lit at 1. rewrite E.
    apply IH. intros H. apply Hp. right. exact H.
Qed.

Lemma explanation_match_none (s : chars) :
  includes s expl_marker = false -> explanation_match s = None.
Proof.
  induction s as [|c s IH]; intros H; [reflexivity|].
  cbn [includes] in H. apply orb_false_iff in H as [H1 H2].
  cbn [explanation_match]. unfold match_lit. rewrite H1. apply IH, H2.
Qed.

Lemma before_backticks_none (s : chars) :
  includes s backticks = false -> before_backticks s = s.
Proof.
  induction s as [|c s IH]; intros H; [reflexivity|].
  cbn [includes] in H. apply orb_false_iff in H as [H1 H2].
  cbn [before_backticks]. rewrite H1, IH by exact H2. reflexivity.
Qed.

Lemma step_entry_count (tc : ToolCall) :
  length (step_entry tc) = if truthy (toolName tc) then 1 else 0.
Proof.
  unfold step_entry. cbv zeta.
  destruct (name_is (toolName tc) "bash" && _) eqn:E1.
  - apply andb_true_iff in E1 as [E1 _].
    destruct tc as [[n|] a]; cbn in E1; [|discriminate].
    apply String.eqb_eq in E1. subst n. reflexivity.
  - destruct (name_is (toolName tc) "readFile" && _) eqn:E2.
    + apply andb_true_iff in E2 as [E2 _].
      destruct tc as [[n|] a]; cbn in E2; [|discriminate].
      apply String.eqb_eq in E2. subst n. reflexivity.
    + destruct (truthy (toolName tc)); reflexivity.
Qed.

Lemma not_in_app {A} (c : A) (x y : list A) : ~ In c x -> ~ In c y -> ~ In c (x ++ y).
Proof. intros Hx Hy H. apply in_app_iff in H as [H|H]; contradiction. Qed.

Ltac not_in_const :=
  let H := fresh in
  intros H; vm_compute in H; repeat (destruct H as [H|H]; [discriminate H|]); exact H.

Ltac not_in_parts := repeat apply not_in_app; try first [assumption | not_in_const].

Lemma sql_marker_split (z : chars) :
  list_ascii_of_string "**SQL Query:**" ++ z = sql_marker ++ list_ascii_of_string "**" ++ z.
Proof. reflexivity. Qed.

End AgentMore.

Import Agent AgentFacts AgentMore.

(** X4 (query): round trip of the output format.  For an answer laid out
    as the system prompt asks ([**Explanation:** E], a blank line,
    [**SQL Query:**], then [Q] in a [```sql] fence), with any text before
    and after it, the parser returns the trimmed [E] as the explanation and
    the trimmed [Q] as the SQL, provided the explanation and the leading
    text contain no [*] or backtick and the query no backtick. *)
Theorem parse_answer_format (pre E Q post : chars) :
  ~ In "*"%char pre -> ~ In "`"%char pre ->
  ~ In "*"%char E -> ~ In "`"%char E -> ~ In "`"%char Q ->
  extract_explanation (answer_format pre E Q post) = trim E /\
  extract_sql (answer_format pre E Q post) = trim Q.
Proof.
  intros Hpa Hpb Hea Heb Hqb. split.
  - unfold extract_explanation, answer_format.
    rewrite explanation_match_at by exact Hpa.
    rewrite until_skip_ws, skip_ws_trim_start, trim_trim_start.
    rewrite sql_marker_split.
    rewrite (app_assoc E [newline; newline]), (app_assoc [" "%char] (E ++ [newline; newline])).
    rewrite until_marker_app by not_in_parts.
    apply trim_surround; repeat constructor.
  - unfold extract_sql.
    set (P := pre ++ expl_marker ++ [" "%char] ++ E ++ [newline; newline] ++
              list_ascii_of_string "**SQL Query:**" ++ [newline]).
    assert (EA : answer_format pre E Q post
                 = P ++ fence_open ++ (Q ++ [newline]) ++ backticks ++ post).
    { unfold answer_format, P. rewrite <- !app_assoc. reflexivity. }
    rewrite EA, sql_match_skip.
    + change (fence_open ++ (Q ++ [newline]) ++ backticks ++ post)
        with ("`"%char :: (tl fence_open ++ (Q ++ [newline]) ++ backticks ++ post)).
      cbn [sql_match].
      change ("`"%char :: (tl fence_open ++ (Q ++ [newline]) ++ backticks ++ post))
        with (fence_open ++ (Q ++ [newline]) ++ backticks ++ post).
      rewrite match_lit_app, lazy_until_first.
      * rewrite <- (app_nil_l (Q ++ [newline])). apply trim_surround; repeat constructor.
      * rewrite <- app_assoc, (includes_skip Q _ _ "`"%char) by (reflexivity || exact Hqb).
        vm_compute. reflexivity.
    + rewrite (includes_skip P _ _ "`"%char); [vm_compute; reflexivity|reflexivity|].
      unfold P. not_in_parts.
Qed.

Lemma parse_answer_format_witness :
  extract_explanation
    (answer_format (list_ascii_of_string "I explored the schema.")
                   (list_ascii_of_string "Counts the users.")
                   (list_ascii_of_string "SELECT count(*) FROM users;") [])
  = list_ascii_of_string "Counts the users." /\
  extract_sql
    (answer_format (list_ascii_of_string "I explored the schema.")
                   (list_ascii_of_string "Counts the users.")
                   (list_ascii_of_string "SELECT count(*) FROM users;") [])
  = list_ascii_of_string "SELECT count(*) FROM users;".
Proof.
  apply parse_answer_format; not_in_const.
Defined.

(** X5 (query): an answer with no [**Explanation:**] marker and no code
    fence is taken whole, trimmed, as the explanation, and no SQL is
    extracted from it. *)
Theorem parse_plain_answer (s : chars) :
  includes s expl_marker = false -> includes s backticks = false ->
  extract_explanation s = trim s /\ extract_sql s = [].
Proof.
  intros He Hb. split.
  - unfold extract_explanation. rewrite explanation_match_none by exact He.
    rewrite before_backticks_none by exact Hb. reflexivity.
  - unfold extract_sql. rewrite sql_match_no_marker; [reflexivity|].
    destruct (includes s fence_open) eqn:E; [|reflexivity].
    rewrite <- Hb. symmetry. apply (includes_app_pat _ _ (list_ascii_of_string "sql" ++ [newline])).
    exact E.
Qed.

Lemma parse_plain_answer_witness :
  extract_explanation (list_ascii_of_string " I cannot answer that. ") =
    list_ascii_of_string "I cannot answer that." /\
  extract_sql (list_ascii_of_string " I cannot answer that. ") = [].
Proof. apply parse_plain_answer; vm_compute; reflexivity. Defined.

(** X6 (query): the step log has exactly one entry per tool call that has a
    non-empty name, over all steps; calls without a name leave no entry. *)
Theorem extractSteps_count (steps : list Step) :
  length (extractSteps steps) =
  length (filter (fun tc => truthy (toolName tc)) (flat_map toolCalls steps)).
Proof.
  induction steps as [|st steps IH]; [reflexivity|].
  unfold extractSteps in *. cbn [flat_map]. rewrite length_app, IH, filter_app, length_app.
  f_equal. clear IH. induction (toolCalls st) as [|tc l IHl]; [reflexivity|].
  cbn [flat_map filter]. rewrite length_app, IHl, step_entry_count.
  destruct (truthy (toolName tc)); reflexivity.
Qed.

(** ** The query endpoint *)

Import Route RouteFacts.

Local Open Scope string_scope.

(** A concrete setting for the endpoint: a model that answers at once in
    the prompt's output format with a fixed query, and a database whose
    [execute_query] returns no rows. *)
Module RouteSamples.

Definition answer (sql : string) : string :=
  string_of_list_ascii
    (AgentMore.answer_format [] (list_ascii_of_string "Lists the users.")
                             (list_ascii_of_string sql) []).

Definition env_with (sql : string) : Env :=
  mkEnv (fun _ _ _ _ _ => inr (Agent.mkStep (answer sql) []))
        (fun _ _ => None)
        (fun _ _ => RpcReturns (Some []) None).

Definition env : Env := env_with "SELECT id FROM users".

Definition cred : Credentials := mkCred "https://db.example" "anon" "openai" None "key".

Definition req : Request := mkReq (Some "Who are the users?") (Some cred) (Some (mkSchema [] [] [])).

End RouteSamples.

(** X7 (POST): a request without a question (or with an empty one), without
    credentials or without a schema is answered 400, before the model, the
    validator or the database is called. *)
Theorem POST_missing_input (env : Env) (req : Request) :
  question req = None \/ question req = Some "" \/ credentials req = None \/ schema req = None ->
  POST env req = (bad_request, []).
Proof.
  intros H. destruct req as [[q|] [cr|] [sc|]]; unfold POST; cbn [question credentials schema] in *;
    try reflexivity.
  destruct H as [H|[H|[H|H]]]; try discriminate H.
  injection H as ->. reflexivity.
Qed.

Lemma POST_missing_input_witness :
  POST RouteSamples.env (mkReq (Some "") None None) = (bad_request, []).
Proof. apply POST_missing_input. right. left. reflexivity. Defined.

(** X8 (POST, createLLMClient): with a provider other than openai,
    anthropic and google the endpoint answers 500 with the message
    [Unknown LLM provider: <provider>], without calling the model, the
    validator or the database. *)
Theorem POST_unknown_provider (env : Env) (q : string) (cr : Credentials) (sc : SchemaInfo) :
  q <> "" -> ~ In (llmProvider cr) ["openai"; "anthropic"; "google"] ->
  POST env (mkReq (Some q) (Some cr) (Some sc))
  = (server_error ("Unknown LLM provider: " ++ llmProvider cr), []).
Proof.
  intros Hq Hp. unfold POST. cbn [question credentials schema].
  destruct (String.eqb_spec q "") as [->|_]; [contradiction|].
  unfold createLLMClient. cbv zeta.
  destruct (String.eqb_spec (llmProvider cr) "openai") as [E|_];
    [exfalso; apply Hp; left; symmetry; exact E|].
  destruct (String.eqb_spec (llmProvider cr) "anthropic") as [E|_];
    [exfalso; apply Hp; right; left; symmetry; exact E|].
  destruct (String.eqb_spec (llmProvider cr) "google") as [E|_];
    [exfalso; apply Hp; right; right; left; symmetry; exact E|].
  reflexivity.
Qed.

Lemma POST_unknown_provider_witness :
  POST RouteSamples.env
       (mkReq (Some "q") (Some (mkCred "u" "k" "mistral" None "key")) (Some (mkSchema [] [] [])))
  = (server_error "Unknown LLM provider: mistral", []).
Proof.
  apply (POST_unknown_provider _ _ (mkCred "u" "k" "mistral" None "key")).
  - discriminate.
  - simpl. intros [H|[H|[H|[]]]]; discriminate H.
Defined.

(** X9 (POST): the database is only ever given a query the validator
    accepted: whenever the endpoint calls [execute_query], its trace is
    exactly the agent, the validation of some [sql] that passed, and one
    call with [cleanSql sql]. *)
Theorem POST_rpc_only_validated (env : Env) (req : Request) (resp : Response)
    (tr : list Event) (c : string) :
  POST env req = (resp, tr) -> In (EvRpc c) tr ->
  exists q sql,
    question req = Some q /\ tr = [EvAgent q; EvValidate sql; EvRpc c] /\
    valid (validateSqlQuery sql) = true /\ c = cleanSql sql.
Proof.
  intros Hpost Hin. destruct req as [[q|] [cr|] [sc|]];
    unfold POST in Hpost; cbn [question credentials schema] in Hpost |- *;
    try (injection Hpost as <- <-; destruct Hin; fail).
  destruct (String.eqb q "");
    [injection Hpost as <- <-; destruct Hin|].
  destruct (createLLMClient cr);
    [injection Hpost as <- <-; destruct Hin|].
  cbv zeta in Hpost.
  destruct (Agent.query _) as [e|res];
    [injection Hpost as <- <-; destruct Hin as [H|[]]; discriminate H|].
  destruct (String.eqb (Agent.sql res) "" || String.eqb (trim_s (Agent.sql res)) "");
    [injection Hpost as <- <-; destruct Hin as [H|[]]; discriminate H|].
  destruct (valid (validateSqlQuery (Agent.sql res))) eqn:Ev; cbn [negb] in Hpost;
    [|injection Hpost as <- <-; destruct Hin as [H|[H|[]]]; discriminate H].
  destruct (client_error env (supabaseUrl cr) (supabaseAnonKey cr));
    [injection Hpost as <- <-; destruct Hin as [H|[H|[]]]; discriminate H|].
  exists q, (Agent.sql res).
  destruct (rpc env cr (cleanSql (Agent.sql res))) as [|d [m|]];
    injection Hpost as <- <-;
    destruct Hin as [H|[H|[H|[]]]]; try discriminate H; injection H as <-;
    repeat split; exact Ev.
Qed.

Lemma POST_rpc_only_validated_witness :
  exists q sql,
    question RouteSamples.req = Some q /\
    snd (POST RouteSamples.env RouteSamples.req) = [EvAgent q; EvValidate sql; EvRpc "SELECT id FROM users"] /\
    valid (validateSqlQuery sql) = true /\ "SELECT id FROM users" = cleanSql sql.
Proof.
  apply (POST_rpc_only_validated RouteSamples.env RouteSamples.req
           (fst (POST RouteSamples.env RouteSamples.req))).
  - vm_compute. reflexivity.
  - vm_compute. right. right. left. reflexivity.
Defined.

(** X10 (POST): when the validator rejects the SQL the model produced, the
    endpoint answers 200 with [success: false] and the validator's message
    as [error], and the database is never called. *)
Theorem POST_rejected_sql (env : Env) (req : Request) (resp : Response)
    (tr : list Event) (sql : string) :
  POST env req = (resp, tr) -> In (EvValidate sql) tr ->
  valid (validateSqlQuery sql) = false ->
  exists q, tr = [EvAgent q; EvValidate sql] /\ status resp = 200 /\
    In ("success", JBool false) (body resp) /\
    In ("error", JStr (Agent.opt_str (error (validateSqlQuery sql)))) (body resp).
Proof.
  intros Hpost Hin Hv. destruct req as [[q|] [cr|] [sc|]];
    unfold POST in Hpost; cbn [question credentials schema] in Hpost;
    try (injection Hpost as <- <-; destruct Hin; fail).
  destruct (String.eqb q "");
    [injection Hpost as <- <-; destruct Hin|].
  destruct (createLLMClient cr);
    [injection Hpost as <- <-; destruct Hin|].
  cbv zeta in Hpost.
  destruct (Agent.query _) as [e|res];
    [injection Hpost as <- <-; destruct Hin as [H|[]]; discriminate H|].
  destruct (String.eqb (Agent.sql res) "" || String.eqb (trim_s (Agent.sql res)) "");
    [injection Hpost as <- <-; destruct Hin as [H|[]]; discriminate H|].
  destruct (valid (validateSqlQuery (Agent.sql res))) eqn:Ev; cbn [negb] in Hpost.
  - exfalso.
    destruct (client_error env (supabaseUrl cr) (supabaseAnonKey cr)).
    + injection Hpost as <- <-. destruct Hin as [H|[H|[]]]; try discriminate H.
      injection H as <-. rewrite Ev in Hv. discriminate Hv.
    + destruct (rpc env cr (cleanSql (Agent.sql res))) as [|d [m|]];
        injection Hpost as <- <-;
        destruct Hin as [H|[H|[H|[]]]]; try discriminate H;
        injection H as <-; rewrite Ev in Hv; discriminate Hv.
  - injection Hpost as <- <-. destruct Hin as [H|[H|[]]]; [discriminate H|].
    injection H as <-. exists q. split; [reflexivity|]. split; [reflexivity|].
    split; [left; reflexivity|]. right. left. reflexivity.
Qed.

Lemma POST_rejected_sql_witness :
  exists q,
    snd (POST (RouteSamples.env_with "DELETE FROM users") RouteSamples.req)
      = [EvAgent q; EvValidate "DELETE FROM users"] /\
    status (fst (POST (RouteSamples.env_with "DELETE FROM users") RouteSamples.req)) = 200 /\
    In ("success", JBool false)
       (body (fst (POST (RouteSamples.env_with "DELETE FROM users") RouteSamples.req))) /\
    In ("error", JStr (Agent.opt_str (error (validateSqlQuery "DELETE FROM users"))))
       (body (fst (POST (RouteSamples.env_with "DELETE FROM users") RouteSamples.req))).
Proof.
  apply (POST_rejected_sql (RouteSamples.env_with "DELETE FROM users") RouteSamples.req).
  - apply surjective_pairing.
  - vm_compute. right. left. reflexivity.
  - vm_compute. reflexivity.
Defined.

(** X11 (getModelId): the model id is never empty: an empty or missing
    override falls back to the provider's default. *)
Theorem getModelId_nonempty (provider : string) (modelOverride : option string) :
  getModelId provider modelOverride <> "" /\
  (modelOverride = Some "" -> getModelId provider modelOverride = getModelId provider None).
Proof.
  split.
  - unfold getModelId. destruct modelOverride as [m|]; cbn [Agent.truthy Agent.opt_str].
    + destruct (String.eqb_spec m "") as [->|Hm]; cbn [negb].
      * repeat (destruct (String.eqb _ _)); discriminate.
      * exact Hm.
    + repeat (destruct (String.eqb _ _)); discriminate.
  - intros ->. reflexivity.
Qed.

(** ** The schema materializer: which documents, and what they list *)

Module SchemaMore.

Import Schema SchemaFacts.

Local Open Scope string_scope.

Lemma fold_append_shift {A : Type} (f : A -> string) (l : list A) (b c : string) :
  fold_left (fun acc y => acc ++ f y) l (b ++ c) = b ++ fold_left (fun acc y => acc ++ f y) l c.
Proof.
  revert c. induction l as [|y l IH]; intros c; simpl; [reflexivity|].
  rewrite string_app_assoc. apply IH.
Qed.

Lemma infix_extend (x s t : string) :
  (exists pre post, s = pre ++ x ++ post) -> exists pre post, s ++ t = pre ++ x ++ post.
Proof.
  intros [pre [post ->]]. exists pre, (post ++ t). rewrite !string_app_assoc. reflexivity.
Qed.

Lemma join_infix (sep x : string) (l : list string) :
  In x l -> exists pre post, join sep l = pre ++ x ++ post.
Proof.
  induction l as [|y l IH]; intros Hin; [destruct Hin|].
  destruct l as [|z l].
  - destruct Hin as [<-|[]]. exists "", "". simpl. rewrite string_app_nil_r. reflexivity.
  - change (join sep (y :: z :: l)) with (y ++ sep ++ join sep (z :: l)).
    destruct Hin as [<-|Hin].
    + exists "", (sep ++ join sep (z :: l)). reflexivity.
    + destruct (IH Hin) as [pre [post ->]]. exists (y ++ sep ++ pre), post.
      rewrite !string_app_assoc. reflexivity.
Qed.

Lemma keys_obj_set (x k v : string) (o : files) :
  In x (map fst (obj_set k v o)) <-> x = k \/ In x (map fst o).
Proof.
  induction o as [|[k1 v1] o IH]; simpl; [firstorder congruence|].
  destruct (String.eqb_spec k k1) as [->|Hne]; simpl; [firstorder congruence|].
  rewrite IH. tauto.
Qed.

Lemma keys_fold_tables (sc : SchemaInfo) (x : string) (l : list TableInfo.t) (o : files) :
  In x (map fst (fold_left (table_step sc) l o)) <->
  In x (map fst o) \/ exists t, In t l /\ x = table_path (TableInfo.table_name t).
Proof.
  revert o. induction l as [|t l IH]; intros o; simpl.
  - split; [tauto|]. intros [H|[t [[] _]]]. exact H.
  - rewrite IH. unfold table_step. rewrite keys_obj_set. split.
    + intros [[H|H]|[t' [Ht' H]]].
      * right. exists t. split; [left; reflexivity|exact H].
      * left. exact H.
      * right. exists t'. split; [right; exact Ht'|exact H].
    + intros [H|[t' [[<-|Ht'] H]]].
      * left. right. exact H.
      * left. left. exact H.
      * right. exists t'. split; assumption.
Qed.

Lemma table_doc (sc : SchemaInfo) (t : TableInfo.t) :
  In t (tables sc) ->
  exists t', In t' (tables sc) /\ TableInfo.table_name t' = TableInfo.table_name t /\
    obj_get (table_path (TableInfo.table_name t)) (schemaToFiles sc) =
    Some (table_content t' (columns_of sc (TableInfo.table_name t))
                           (fks_of sc (TableInfo.table_name t))).
Proof.
  intros Hin. rewrite schemaToFiles_table. apply fold_tables_get. exact Hin.
Qed.

Lemma summary_doc (sc : SchemaInfo) :
  obj_get "schema/summary.md" (schemaToFiles sc) =
  Some (fold_left (fun acc table => acc ++ summary_entry sc table) (tables sc)
          ("# Quick Reference" ++ nl ++ nl ++ "## All Tables and Columns" ++ nl ++ nl)).
Proof. unfold schemaToFiles. cbv zeta. apply obj_get_set_same. Qed.

Lemma relationships_other (n : string) : "schema/relationships.md" <> table_path n.
Proof. intros E. symmetry in E. exact (table_path_not_relationships n E). Qed.

Lemma infix_trans (s x y : string) :
  (exists pre post, x = pre ++ y ++ post) -> (exists pre post, s = pre ++ x ++ post) ->
  exists pre post, s = pre ++ y ++ post.
Proof.
  intros [p1 [q1 ->]] [p2 [q2 ->]]. exists (p2 ++ p1), (q1 ++ q2).
  rewrite !string_app_assoc. reflexivity.
Qed.

Lemma some_infix (d x : string) :
  (exists pre post, d = pre ++ x ++ post) ->
  exists pre post, Some d = Some d /\ d = pre ++ x ++ post.
Proof. intros [pre [post E]]. exists pre, post. split; [reflexivity|exact E]. Qed.

Lemma infix_left (x a b : string) : exists pre post, (a ++ x ++ b) = pre ++ x ++ post.
Proof. exists a, b. reflexivity. Qed.

Lemma documents_column (sc : SchemaInfo) (t : TableInfo.t) (col : ColumnInfo.t) :
  In t (tables sc) -> In col (columns sc) ->
  ColumnInfo.table_name col = TableInfo.table_name t ->
  exists doc pre post,
    obj_get (table_path (TableInfo.table_name t)) (schemaToFiles sc) = Some doc /\
    doc = pre ++ column_row col ++ post.
Proof.
  intros Ht Hc En. destruct (table_doc sc t Ht) as [t' [_ [_ ->]]].
  eexists. apply some_infix.
  assert (Hcol : In col (columns_of sc (TableInfo.table_name t))).
  { unfold columns_of. apply filter_In. split; [exact Hc|]. apply String.eqb_eq. exact En. }
  unfold table_content. cbv zeta.
  destruct (fold_append_infix column_row col _
              ("# Table: " ++ TableInfo.table_name t' ++ nl ++ nl ++
               "Type: " ++ TableInfo.table_type t' ++ nl ++
               "Schema: " ++ TableInfo.table_schema t' ++ nl ++ nl ++ columns_header) Hcol)
    as [pre [post E]].
  destruct (Nat.ltb 0 _).
  - rewrite fold_append_shift, E. apply infix_extend. apply infix_left.
  - rewrite E. apply infix_left.
Qed.

End SchemaMore.

Import Schema SchemaFacts SchemaMore.

(** X12 (schemaToFiles): the generated paths are exactly
    [schema/overview.md], [schema/tables/<name>.md] for each table,
    [schema/relationships.md] when the schema has foreign keys, and
    [schema/summary.md]. *)
Theorem schemaToFiles_paths (sc : SchemaInfo) (k : string) :
  In k (map fst (schemaToFiles sc)) <->
  k = "schema/overview.md" \/
  (exists t, In t (tables sc) /\ k = table_path (TableInfo.table_name t)) \/
  (foreignKeys sc <> [] /\ k = "schema/relationships.md") \/
  k = "schema/summary.md".
Proof.
  unfold schemaToFiles. cbv zeta. rewrite keys_obj_set.
  change (fold_left _ (tables sc) ?o) with (fold_left (table_step sc) (tables sc) o).
  destruct (foreignKeys sc) as [|fk fks] eqn:Efk; cbn [length Nat.ltb Nat.leb].
  - rewrite keys_fold_tables. simpl. firstorder congruence.
  - rewrite keys_obj_set, keys_fold_tables. simpl. firstorder congruence.
Qed.

(** X13 (schemaToFiles): every column of a listed table is documented: its
    row (name, type, nullability, default) appears in the document
    [schema/tables/<table>.md]. *)
Theorem schemaToFiles_documents_column (sc : SchemaInfo) (t : TableInfo.t) (col : ColumnInfo.t) :
  In t (tables sc) -> In col (columns sc) ->
  ColumnInfo.table_name col = TableInfo.table_name t ->
  exists doc pre post,
    obj_get (table_path (TableInfo.table_name t)) (schemaToFiles sc) = Some doc /\
    doc = pre ++ column_row col ++ post.
Proof. apply documents_column. Qed.

Lemma schemaToFiles_documents_column_witness :
  exists doc pre post,
    obj_get (table_path "users")
      (schemaToFiles (mkSchema [TableInfo.mk "public" "users" "BASE TABLE"]
                               [ColumnInfo.mk "public" "users" "id" "integer" "NO" None None] [])) = Some doc /\
    doc = pre ++ column_row (ColumnInfo.mk "public" "users" "id" "integer" "NO" None None) ++ post.
Proof.
  apply (schemaToFiles_documents_column _ (TableInfo.mk "public" "users" "BASE TABLE")).
  - left. reflexivity.
  - left. reflexivity.
  - reflexivity.
Defined.

(** X14 (schemaToFiles): every foreign key of a listed table appears, as
    [- column → table.column], in that table's document. *)
Theorem schemaToFiles_documents_fk (sc : SchemaInfo) (t : TableInfo.t) (fk : ForeignKeyInfo.t) :
  In t (tables sc) -> In fk (foreignKeys sc) ->
  ForeignKeyInfo.table_name fk = TableInfo.table_name t ->
  exists doc pre post,
    obj_get (table_path (TableInfo.table_name t)) (schemaToFiles sc) = Some doc /\
    doc = pre ++ fk_line fk ++ post.
Proof.
  intros Ht Hf En. destruct (table_doc sc t Ht) as [t' [_ [_ ->]]].
  eexists. apply some_infix.
  assert (Hfk : In fk (fks_of sc (TableInfo.table_name t))).
  { unfold fks_of. apply filter_In. split; [exact Hf|]. apply String.eqb_eq. exact En. }
  unfold table_content. cbv zeta.
  destruct (fks_of sc (TableInfo.table_name t)) as [|f0 fs] eqn:Efs; [destruct Hfk|].
  cbn [length Nat.ltb Nat.leb].
  exact (fold_append_infix fk_line fk (f0 :: fs) _ Hfk).
Qed.

Lemma schemaToFiles_documents_fk_witness :
  exists doc pre post,
    obj_get (table_path "orders")
      (schemaToFiles
         (mkSchema [TableInfo.mk "public" "users" "BASE TABLE"; TableInfo.mk "public" "orders" "BASE TABLE"]
                   []
                   [ForeignKeyInfo.mk "orders_user_fk" "public" "orders" "user_id" "public" "users" "id"]))
    = Some doc /\
    doc = pre ++ fk_line (ForeignKeyInfo.mk "orders_user_fk" "public" "orders" "user_id" "public" "users" "id")
          ++ post.
Proof.
  apply (schemaToFiles_documents_fk _ (TableInfo.mk "public" "orders" "BASE TABLE")).
  - right. left. reflexivity.
  - left. reflexivity.
  - reflexivity.
Defined.

(** X15 (schemaToFiles): [schema/relationships.md], written whenever the
    schema has a foreign key, lists every foreign key of the schema, as
    [- table.column → table.column], whether or not its table is listed. *)
Theorem schemaToFiles_relationships (sc : SchemaInfo) (fk : ForeignKeyInfo.t) :
  In fk (foreignKeys sc) ->
  exists doc pre post,
    obj_get "schema/relationships.md" (schemaToFiles sc) = Some doc /\
    doc = pre ++ relationship_line fk ++ post.
Proof.
  intros Hf. unfold schemaToFiles. cbv zeta.
  rewrite obj_get_set_other by discriminate.
  destruct (foreignKeys sc) as [|f0 fs] eqn:Efs; [destruct Hf|].
  cbn [length Nat.ltb Nat.leb]. rewrite obj_get_set_same.
  eexists. apply some_infix. apply fold_append_infix. exact Hf.
Qed.

Lemma schemaToFiles_relationships_witness :
  exists doc pre post,
    obj_get "schema/relationships.md"
      (schemaToFiles
         (mkSchema [] []
                   [ForeignKeyInfo.mk "orders_user_fk" "public" "orders" "user_id" "public" "users" "id"]))
    = Some doc /\
    doc = pre ++ relationship_line
                   (ForeignKeyInfo.mk "orders_user_fk" "public" "orders" "user_id" "public" "users" "id")
          ++ post.
Proof. apply schemaToFiles_relationships. left. reflexivity. Defined.

(** X16 (schemaToFiles): every table appears in [schema/overview.md] as
    [- name (type)], and every column of a listed table appears in
    [schema/summary.md] as [- column (type)]. *)
Theorem schemaToFiles_overview_summary (sc : SchemaInfo) (t : TableInfo.t) (col : ColumnInfo.t) :
  In t (tables sc) ->
  (exists doc pre post,
     obj_get "schema/overview.md" (schemaToFiles sc) = Some doc /\
     doc = pre ++ overview_line t ++ post) /\
  (In col (columns sc) -> ColumnInfo.table_name col = TableInfo.table_name t ->
   exists doc pre post,
     obj_get "schema/summary.md" (schemaToFiles sc) = Some doc /\
     doc = pre ++ ("- " ++ ColumnInfo.column_name col ++ " (" ++ ColumnInfo.data_type col ++ ")")
           ++ post).
Proof.
  intros Ht. split.
  - rewrite schemaToFiles_overview. eexists. apply some_infix.
    unfold overview_of. apply fold_append_infix. exact Ht.
  - intros Hc En. rewrite summary_doc. eexists. apply some_infix.
    apply (infix_trans _ (summary_entry sc t)).
    + unfold summary_entry.
      apply (infix_trans _ (join nl (map (fun c => "- " ++ ColumnInfo.column_name c ++ " (" ++
                                                   ColumnInfo.data_type c ++ ")")
                                         (columns_of sc (TableInfo.table_name t))))).
      * apply join_infix.
        apply (in_map (fun c => "- " ++ ColumnInfo.column_name c ++ " (" ++
                                ColumnInfo.data_type c ++ ")")).
        unfold columns_of. apply filter_In. split; [exact Hc|]. apply String.eqb_eq. exact En.
      * exists ("### " ++ TableInfo.table_name t ++ nl), (nl ++ nl).
        rewrite !string_app_assoc. reflexivity.
    + apply fold_append_infix. exact Ht.
Qed.

Lemma schemaToFiles_overview_summary_witness :
  (exists doc pre post,
     obj_get "schema/overview.md"
       (schemaToFiles (mkSchema [TableInfo.mk "public" "users" "BASE TABLE"]
                                [ColumnInfo.mk "public" "users" "id" "integer" "NO" None None] []))
     = Some doc /\ doc = pre ++ overview_line (TableInfo.mk "public" "users" "BASE TABLE") ++ post) /\
  (exists doc pre post,
     obj_get "schema/summary.md"
       (schemaToFiles (mkSchema [TableInfo.mk "public" "users" "BASE TABLE"]
                                [ColumnInfo.mk "public" "users" "id" "integer" "NO" None None] []))
     = Some doc /\ doc = pre ++ ("- " ++ "id" ++ " (" ++ "integer" ++ ")") ++ post).
Proof.
  destruct (schemaToFiles_overview_summary
              (mkSchema [TableInfo.mk "public" "users" "BASE TABLE"]
                        [ColumnInfo.mk "public" "users" "id" "integer" "NO" None None] [])
              (TableInfo.mk "public" "users" "BASE TABLE")
              (ColumnInfo.mk "public" "users" "id" "integer" "NO" None None)
              (or_introl eq_refl)) as [H1 H2].
  split; [exact H1|]. exact (H2 (or_introl eq_refl) eq_refl).
Defined.

(** ** Schema introspection and the schema endpoint *)

Module FetchFacts.

Import SchemaFetch.

Local Open Scope string_scope.

(** what every table and column read from the REST description satisfies *)
Definition rest_table_ok (t : TableInfo.t) : Prop :=
  TableInfo.table_schema t = "public" /\ TableInfo.table_type t = "BASE TABLE" /\
  startsWith (list_ascii_of_string (TableInfo.table_name t)) ["_"%char] = false.

Definition rest_column_ok (tbls : list TableInfo.t) (c : ColumnInfo.t) : Prop :=
  (exists t, In t tbls /\ TableInfo.table_name t = ColumnInfo.table_name c) /\
  ColumnInfo.table_schema c = "public" /\ ColumnInfo.is_nullable c = "YES" /\
  ColumnInfo.column_default c = None /\ ColumnInfo.data_type c <> "".

Definition rest_inv (acc : list TableInfo.t * list ColumnInfo.t) : Prop :=
  (forall t, In t (fst acc) -> rest_table_ok t) /\
  (forall c, In c (snd acc) -> rest_column_ok (fst acc) c).

Lemma data_type_of_nonempty (p : PropDef) : data_type_of p <> "".
Proof.
  unfold data_type_of, Agent.truthy, Agent.opt_str.
  destruct (p_format p) as [f|]; [destruct (String.eqb_spec f "") as [_|Hf]; cbn [negb]; [|exact Hf]|];
    (destruct (p_type p) as [ty|]; [destruct (String.eqb_spec ty "") as [_|Ht]; cbn [negb]; [|exact Ht]|]);
    discriminate.
Qed.

Lemma rest_column_ok_mono (tbls tbls' : list TableInfo.t) (c : ColumnInfo.t) :
  (forall t, In t tbls -> In t tbls') -> rest_column_ok tbls c -> rest_column_ok tbls' c.
Proof.
  intros Hsub [[t [Ht E]] H]. split; [|exact H]. exists t. split; [apply Hsub, Ht|exact E].
Qed.

Lemma rest_step_inv (acc : list TableInfo.t * list ColumnInfo.t) (e : string * Definition_) :
  rest_inv acc -> rest_inv (rest_step acc e).
Proof.
  destruct acc as [ts cs], e as [name def]. intros [Ht Hc]. unfold rest_step.
  destruct (startsWith (list_ascii_of_string name) ["_"%char]) eqn:Es; [split; assumption|].
  assert (Hts : forall t, In t (ts ++ [TableInfo.mk "public" name "BASE TABLE"])%list -> rest_table_ok t).
  { intros t Hin. apply in_app_iff in Hin as [Hin|[<-|[]]]; [exact (Ht t Hin)|].
    split; [reflexivity|]. split; [reflexivity|exact Es]. }
  assert (Hsub : forall t, In t ts -> In t (ts ++ [TableInfo.mk "public" name "BASE TABLE"])%list)
    by (intros t Hin; apply in_app_iff; left; exact Hin).
  destruct (properties def) as [props|]; split; cbn [fst snd]; try exact Hts.
  - intros c Hin. apply in_app_iff in Hin as [Hin|Hin].
    + exact (rest_column_ok_mono _ _ _ Hsub (Hc c Hin)).
    + apply in_map_iff in Hin as [[cn pd] [<- _]]. unfold column_of. cbn [fst snd].
      split; [|split; [reflexivity|split; [reflexivity|split; [reflexivity|apply data_type_of_nonempty]]]].
      exists (TableInfo.mk "public" name "BASE TABLE"). split; [|reflexivity].
      apply in_app_iff. right. left. reflexivity.
  - intros c Hin. exact (rest_column_ok_mono _ _ _ Hsub (Hc c Hin)).
Qed.

Lemma rest_fold_inv (defs : list (string * Definition_)) (acc : list TableInfo.t * list ColumnInfo.t) :
  rest_inv acc -> rest_inv (fold_left rest_step defs acc).
Proof.
  revert acc. induction defs as [|e defs IH]; intros acc H; [exact H|].
  apply IH, rest_step_inv, H.
Qed.

Lemma fetchSchemaViaRest_inv (r : FetchOutcome) (sc : SchemaInfo) :
  fetchSchemaViaRest r = inr sc ->
  foreignKeys sc = [] /\ rest_inv (tables sc, columns sc).
Proof.
  destruct r as [m|[|] [m|defs]]; cbn [fetchSchemaViaRest]; intros H; try discriminate H.
  assert (Hinv : rest_inv (match defs with Some d => fold_left rest_step d ([], []) | None => ([], []) end)).
  { destruct defs as [d|]; [apply rest_fold_inv|]; split; intros ? []. }
  destruct (match defs with Some d => fold_left rest_step d ([], []) | None => ([], []) end) as [ts cs].
  injection H as <-. split; [reflexivity|exact Hinv].
Qed.

End FetchFacts.

Import FetchFacts.

(** X17 (fetchSchemaViaRest): the schema read from the REST description is
    consistent: it has no foreign keys; every table is a public base table
    whose name does not start with [_]; every column belongs to one of the
    tables, is public, nullable, without default, and has a non-empty type. *)
Theorem fetchSchemaViaRest_consistent (r : SchemaFetch.FetchOutcome) (sc : SchemaInfo) :
  SchemaFetch.fetchSchemaViaRest r = inr sc ->
  foreignKeys sc = [] /\
  (forall t, In t (tables sc) -> rest_table_ok t) /\
  (forall c, In c (columns sc) -> rest_column_ok (tables sc) c).
Proof.
  intros H. destruct (fetchSchemaViaRest_inv r sc H) as [Hf [Ht Hc]]. auto.
Qed.

Module FetchSamples.

Import SchemaFetch.

Local Open Scope string_scope.

Definition definitions : list (string * Definition_) :=
  [("users", mkDef (Some [("id", mkProp (Some "integer") (Some "int8") None);
                           ("name", mkProp (Some "string") (Some "") None);
                           ("meta", mkProp None None None)]));
   ("_migrations", mkDef (Some [("version", mkProp (Some "string") None None)]));
   ("orders", mkDef None)].

Definition response : FetchOutcome := FetchResponse true (inr (Some definitions)).

Definition schema : SchemaInfo :=
  mkSchema [TableInfo.mk "public" "users" "BASE TABLE"; TableInfo.mk "public" "orders" "BASE TABLE"]
           [ColumnInfo.mk "public" "users" "id" "int8" "YES" None None;
            ColumnInfo.mk "public" "users" "name" "string" "YES" None None;
            ColumnInfo.mk "public" "users" "meta" "unknown" "YES" None None]
           [].

End FetchSamples.

Lemma fetchSchemaViaRest_consistent_witness :
  foreignKeys FetchSamples.schema = [] /\
  (forall t, In t (tables FetchSamples.schema) -> rest_table_ok t) /\
  (forall c, In c (columns FetchSamples.schema) -> rest_column_ok (tables FetchSamples.schema) c).
Proof.
  apply (fetchSchemaViaRest_consistent FetchSamples.response). vm_compute. reflexivity.
Defined.

(** X18 (fetchSchemaViaRest, schemaToFiles): composed, introspection over
    REST and materialisation document every column read: each appears as a
    row of the document of its table. *)
Theorem rest_schema_columns_documented (r : SchemaFetch.FetchOutcome) (sc : SchemaInfo)
    (col : ColumnInfo.t) :
  SchemaFetch.fetchSchemaViaRest r = inr sc -> In col (columns sc) ->
  exists doc pre post,
    obj_get (table_path (ColumnInfo.table_name col)) (schemaToFiles sc) = Some doc /\
    doc = (pre ++ column_row col ++ post)%string.
Proof.
  intros H Hc. destruct (fetchSchemaViaRest_inv r sc H) as [_ [_ Hcols]].
  destruct (Hcols col Hc) as [[t [Ht E]] _]. cbn [fst] in Ht.
  rewrite <- E. apply (documents_column sc t col Ht Hc). symmetry. exact E.
Qed.

Lemma rest_schema_columns_documented_witness :
  exists doc pre post,
    obj_get (table_path "users") (schemaToFiles FetchSamples.schema) = Some doc /\
    doc = (pre ++ column_row (ColumnInfo.mk "public" "users" "meta" "unknown" "YES" None None)
               ++ post)%string.
Proof.
  apply (rest_schema_columns_documented FetchSamples.response FetchSamples.schema
           (ColumnInfo.mk "public" "users" "meta" "unknown" "YES" None None)).
  - vm_compute. reflexivity.
  - right. right. left. reflexivity.
Defined.

(** X19 (schema endpoint POST): a body without a non-empty [supabaseUrl]
    or [supabaseAnonKey] is answered 400 without any REST request; otherwise
    exactly one request goes to [<supabaseUrl>/rest/v1/] with the key, and
    a failed fetch is answered 500 with its message. *)
Theorem schema_POST_cases (fetch : string -> string -> SchemaFetch.FetchOutcome)
    (url key : option string) :
  (Agent.truthy url = false \/ Agent.truthy key = false ->
   SchemaRoute.POST fetch (inr (url, key)) = (SchemaRoute.RespError 400 SchemaRoute.msg_missing, [])) /\
  (Agent.truthy url = true -> Agent.truthy key = true ->
   let endpoint := (Agent.opt_str url ++ "/rest/v1/")%string in
   snd (SchemaRoute.POST fetch (inr (url, key))) = [(endpoint, Agent.opt_str key)] /\
   match SchemaFetch.fetchSchemaViaRest (fetch endpoint (Agent.opt_str key)) with
   | inl m => fst (SchemaRoute.POST fetch (inr (url, key))) = SchemaRoute.RespError 500 m
   | inr sc => fst (SchemaRoute.POST fetch (inr (url, key))) = SchemaRoute.RespSchema sc
   end).
Proof.
  split.
  - intros [H|H]; unfold SchemaRoute.POST; rewrite H; [reflexivity|].
    rewrite orb_true_r. reflexivity.
  - intros Hu Hk. cbv zeta. unfold SchemaRoute.POST. rewrite Hu, Hk. cbn [negb orb].
    destruct (SchemaFetch.fetchSchemaViaRest _); split; reflexivity.
Qed.

(** X20 (fetchSchema): when the query on [information_schema.tables] fails
    and the [get_tables_info] fallback does return rows, the fetch succeeds
    (columns permitting) but the schema it returns has no tables: the
    fallback's rows are not used. *)
Theorem fetchSchema_fallback_discarded (q : SchemaFetch.Queries) (m : string)
    (l : list TableInfo.t) :
  SchemaFetch.tables_query q = (None, Some m) ->
  SchemaFetch.tables_rpc q = Some (Some l) ->
  snd (SchemaFetch.columns_query q) = None ->
  exists sc, SchemaFetch.fetchSchema q = inr sc /\ tables sc = [].
Proof.
  intros Ht Hr Hc. unfold SchemaFetch.fetchSchema. rewrite Ht, Hr.
  destruct (SchemaFetch.columns_query q) as [cols err]. cbn [snd] in Hc. subst err.
  eexists. split; reflexivity.
Qed.

Lemma fetchSchema_fallback_discarded_witness :
  exists sc,
    SchemaFetch.fetchSchema
      (SchemaFetch.mkQueries (None, Some "permission denied")
                             (Some (Some [TableInfo.mk "public" "users" "BASE TABLE"]))
                             (Some [], None) None) = inr sc /\ tables sc = [].
Proof.
  apply (fetchSchema_fallback_discarded _ "permission denied" [TableInfo.mk "public" "users" "BASE TABLE"]);
    reflexivity.
Defined.

(** X21 (fetchSchema): failures of the foreign-key query never make the
    fetch fail: a rejected [execute_sql] call or one without data gives the
    same result as a query that found no foreign key. *)
Theorem fetchSchema_fk_optional (q : SchemaFetch.Queries) :
  SchemaFetch.fk_rpc q = None \/ SchemaFetch.fk_rpc q = Some None ->
  SchemaFetch.fetchSchema q =
  SchemaFetch.fetchSchema (SchemaFetch.mkQueries (SchemaFetch.tables_query q) (SchemaFetch.tables_rpc q)
                                                 (SchemaFetch.columns_query q) (Some (Some []))).
Proof.
  intros H. destruct q as [tq tr cq fk]. cbn [SchemaFetch.fk_rpc] in H.
  unfold SchemaFetch.fetchSchema. cbn [SchemaFetch.tables_query SchemaFetch.tables_rpc
                                        SchemaFetch.columns_query SchemaFetch.fk_rpc].
  destruct H as [->| ->]; reflexivity.
Qed.

Lemma fetchSchema_fk_optional_witness :
  SchemaFetch.fetchSchema (SchemaFetch.mkQueries (Some [], None) None (Some [], None) None) =
  SchemaFetch.fetchSchema (SchemaFetch.mkQueries (Some [], None) None (Some [], None) (Some (Some []))).
Proof. apply (fetchSchema_fk_optional (SchemaFetch.mkQueries (Some [], None) None (Some [], None) None)). left. reflexivity. Defined.

(** ** Browser storage *)

Module StorageFacts.

Import Storage.

Lemma get_removeItem_same (k : string) (o : Schema.files) : obj_get k (removeItem k o) = None.
Proof.
  induction o as [|[k' v] o IH]; [reflexivity|]. cbn [removeItem].
  destruct (String.eqb_spec k k') as [_|Hne]; [exact IH|].
  cbn [obj_get]. apply String.eqb_neq in Hne. rewrite Hne. exact IH.
Qed.

Lemma get_removeItem_other (k k' : string) (o : Schema.files) :
  k <> k' -> obj_get k (removeItem k' o) = obj_get k o.
Proof.
  intros Hne. induction o as [|[k1 v] o IH]; [reflexivity|]. cbn [removeItem obj_get].
  destruct (String.eqb_spec k' k1) as [<-|_].
  - apply String.eqb_neq in Hne. rewrite Hne. exact IH.
  - cbn [obj_get]. rewrite IH. reflexivity.
Qed.

Lemma keys_distinct : CREDENTIALS_KEY <> SCHEMA_KEY.
Proof. discriminate. Qed.

End StorageFacts.

Import StorageFacts.

(** X22 (clearCredentials): after [clearCredentials] neither credentials
    nor a schema can be read back, and [hasCredentials] is false, whatever
    was stored before. *)
Theorem clearCredentials_clears (parseC : string -> option Route.Credentials) (parseS : string -> option SchemaInfo)
    (b : Storage.Browser) :
  Storage.getCredentials parseC (Storage.clearCredentials b) = None /\
  Storage.getSchema parseS (Storage.clearCredentials b) = None /\
  Storage.hasCredentials parseC (Storage.clearCredentials b) = false.
Proof.
  destruct b as [ls|]; [|repeat split].
  unfold Storage.hasCredentials, Storage.getCredentials, Storage.getSchema, Storage.clearCredentials.
  rewrite get_removeItem_same, get_removeItem_other, get_removeItem_same by exact keys_distinct.
  repeat split.
Qed.

(** X23 (saveCredentials, saveSchema, getCredentials, getSchema): in a
    browser, what is saved is read back, as long as [JSON.parse] inverts
    [JSON.stringify] on it, and each save leaves the other slot as it was. *)
Theorem storage_roundtrip (strC : Route.Credentials -> string)
    (parseC : string -> option Route.Credentials) (strS : SchemaInfo -> string)
    (parseS : string -> option SchemaInfo) (ls : Schema.files)
    (c : Route.Credentials) (sc : SchemaInfo) :
  strC c <> "" -> parseC (strC c) = Some c ->
  strS sc <> "" -> parseS (strS sc) = Some sc ->
  Storage.getCredentials parseC (Storage.saveCredentials strC c (Some ls)) = Some c /\
  Storage.getSchema parseS (Storage.saveCredentials strC c (Some ls)) =
    Storage.getSchema parseS (Some ls) /\
  Storage.getSchema parseS (Storage.saveSchema strS sc (Some ls)) = Some sc /\
  Storage.getCredentials parseC (Storage.saveSchema strS sc (Some ls)) =
    Storage.getCredentials parseC (Some ls).
Proof.
  intros HcE Hc HsE Hs.
  unfold Storage.getCredentials, Storage.getSchema, Storage.saveCredentials, Storage.saveSchema.
  rewrite !obj_get_set_same.
  rewrite (obj_get_set_other Storage.SCHEMA_KEY Storage.CREDENTIALS_KEY)
    by (intros E; apply keys_distinct; symmetry; exact E).
  rewrite (obj_get_set_other Storage.CREDENTIALS_KEY Storage.SCHEMA_KEY) by exact keys_distinct.
  apply String.eqb_neq in HcE. apply String.eqb_neq in HsE. rewrite HcE, HsE, Hc, Hs.
  repeat split.
Qed.

Lemma storage_roundtrip_witness :
  let cred := Route.mkCred "https://db.example" "anon" "openai" None "key" in
  let sc := mkSchema [] [] [] in
  Storage.getCredentials (fun _ => Some cred) (Storage.saveCredentials (fun _ => "{}") cred (Some [])) = Some cred /\
  Storage.getSchema (fun _ => Some sc) (Storage.saveCredentials (fun _ => "{}") cred (Some [])) =
    Storage.getSchema (fun _ => Some sc) (Some []) /\
  Storage.getSchema (fun _ => Some sc) (Storage.saveSchema (fun _ => "{}") sc (Some [])) = Some sc /\
  Storage.getCredentials (fun _ => Some cred) (Storage.saveSchema (fun _ => "{}") sc (Some [])) =
    Storage.getCredentials (fun _ => Some cred) (Some []).
Proof.
  intros cred sc.
  apply (storage_roundtrip (fun _ => "{}") (fun _ => Some cred) (fun _ => "{}") (fun _ => Some sc));
    first [discriminate | reflexivity].
Defined.

(** ** The agent loop *)

Module LoopMore.

Import Agent.

Local Open Scope list_scope.

Lemma gen_loop_shape (provider : Provider) (budget fuel : nat) (steps steps' : list Step) :
  gen_loop provider budget fuel steps = inr steps' -> 0 < fuel ->
  exists new last, steps' = steps ++ new ++ [last] /\ Forall (fun st => toolCalls st <> []) new.
Proof.
  revert steps. induction fuel as [|fuel IH]; intros steps Hg Hf; [lia|].
  cbn [gen_loop] in Hg.
  destruct (provider steps) as [e|st]; [discriminate|].
  destruct (toolCalls st) as [|tc tcs] eqn:Et; cbn [orb] in Hg.
  - injection Hg as <-. exists [], st. split; [reflexivity|constructor].
  - destruct (stepCountIs budget (steps ++ [st])).
    + injection Hg as <-. exists [], st. split; [reflexivity|constructor].
    + destruct fuel as [|fuel'].
      * cbn [gen_loop] in Hg. injection Hg as <-. exists [], st. split; [reflexivity|constructor].
      * destruct (IH _ Hg ltac:(lia)) as [new [last [-> Hnew]]].
        exists (st :: new), last. split; [rewrite <- app_assoc; reflexivity|].
        constructor; [rewrite Et; discriminate|exact Hnew].
Qed.

End LoopMore.

Import LoopMore.

Local Open Scope list_scope.

(** X24 (query, via [generateText]): the model is asked for a further step
    only after a step that issued tool calls: every step of the run but the
    last has tool calls, and the final text the answer is parsed from is the
    text of that last step. *)
Theorem generateText_shape (provider : Agent.Provider) (budget : nat) (res : Agent.GenResult) :
  Agent.generateText provider budget = inr res -> 0 < budget ->
  exists new final,
    Agent.result_steps res = new ++ [final] /\
    Forall (fun st => Agent.toolCalls st <> []) new /\
    Agent.result_text res = Agent.text final.
Proof.
  intros Hg Hb. unfold Agent.generateText in Hg.
  destruct (Agent.gen_loop provider budget budget []) as [e|steps] eqn:El; [discriminate|].
  injection Hg as <-.
  destruct (gen_loop_shape provider budget budget [] steps El Hb) as [new [final [-> Hnew]]].
  exists new, final. cbn [Agent.result_steps Agent.result_text]. split; [reflexivity|].
  split; [exact Hnew|]. rewrite app_nil_l, last_last. destruct final. reflexivity.
Qed.

Lemma generateText_shape_witness :
  exists new final,
    Agent.result_steps (Agent.mkGen "done" [Agent.mkStep "done" []]) = new ++ [final] /\
    Forall (fun st => Agent.toolCalls st <> []) new /\
    Agent.result_text (Agent.mkGen "done" [Agent.mkStep "done" []]) = Agent.text final.
Proof.
  apply (generateText_shape (fun _ => inr (Agent.mkStep "done" [])) 10).
  - reflexivity.
  - lia.
Defined.
